(** * Merge-down action: a shallow embedding of [index.js]

  The action reads a pull-request event, computes the next branch of the
  version lineage with [flow], and drives a sequence of calls to the
  GitHub API in [run].

  Conventions of the embedding.
  - A JavaScript string is a [string]: one [ascii] per UTF-16 code unit,
    so the strings covered are those whose code units are below 256.
  - A JavaScript number is a [number]: a non-negative integer that is a
    binary64 value, [Infinity] or [NaN].  Only non-negative integers
    arise, from [parseInt] of a run of digits, from [+ 1] and from pull
    request numbers; [Date.now()] is an integer of magnitude below 2^53.
  - A regular expression is a [regex] tree, matched by a backtracking
    matcher written with continuations as in ECMA-262 (22.2.2).
  - [run] lives in a monad that threads the remote world, the list of
    API calls made and the list of messages written, and whose results
    are completion records (normal, [return], [throw]). *)

From Stdlib Require Import ZArith List Bool Ascii String Lia.
Import ListNotations.

Local Open Scope string_scope.
Local Open Scope Z_scope.

(* ================================================================== *)
(** ** Strings *)

Module Str.

Fixpoint take (n : nat) (s : string) : string :=
  match n, s with
  | S n', String c s' => String c (take n' s')
  | _, _ => EmptyString
  end.

Fixpoint all (p : ascii -> bool) (s : string) : bool :=
  match s with
  | EmptyString => true
  | String c s' => p c && all p s'
  end.

Fixpoint repeat (c : ascii) (n : nat) : string :=
  match n with
  | O => EmptyString
  | S n' => String c (repeat c n')
  end.

(** [starts_with p s]: [p] is a literal prefix of [s]. *)
Fixpoint starts_with (p s : string) : bool :=
  match p, s with
  | EmptyString, _ => true
  | String a p', String b s' => Ascii.eqb a b && starts_with p' s'
  | String _ _, EmptyString => false
  end.

End Str.

(** The decimal digits, code units 48 to 57. *)
Definition is_digit (c : ascii) : bool :=
  let n := nat_of_ascii c in (48 <=? n)%nat && (n <=? 57)%nat.

Definition digit_val (c : ascii) : Z := Z.of_nat (nat_of_ascii c) - 48.

Definition digit_char (d : Z) : ascii := ascii_of_nat (Z.to_nat (48 + d)).

(** Value of a run of decimal digits, most significant first. *)
Fixpoint digits_value (acc : Z) (s : string) : Z :=
  match s with
  | EmptyString => acc
  | String c s' => digits_value (10 * acc + digit_val c) s'
  end.

Fixpoint decimal_loop (fuel : nat) (z : Z) (acc : string) : string :=
  let acc' := String (digit_char (z mod 10)) acc in
  match fuel with
  | O => acc'
  | S fuel' => if z <? 10 then acc' else decimal_loop fuel' (z / 10) acc'
  end.

(** Decimal numeral of a non-negative integer, without leading zeros. *)
Definition decimal (z : Z) : string :=
  decimal_loop (Z.to_nat (Z.log2 z)) z EmptyString.

(* ================================================================== *)
(** ** Numbers *)

Inductive number : Type :=
| Finite (z : Z)
| Infinity
| NaN.

Module Num.

(** Largest exponent step: integers below [2^53] are all binary64. *)
Definition two53 : Z := 2 ^ 53.

(** Round a non-negative integer to binary64: nearest value with a 53-bit
    significand, ties to the even significand, overflow to [Infinity]. *)
Definition round (z : Z) : number :=
  if z <? two53 then Finite z
  else
    let e := Z.log2 z - 52 in
    let q := Z.shiftr z e in
    let r := z - Z.shiftl q e in
    let half := 2 ^ (e - 1) in
    let q' := if r <? half then q
              else if half <? r then q + 1
              else if Z.even q then q else q + 1 in
    let v := Z.shiftl q' e in
    if v <? 2 ^ 1024 then Finite v else Infinity.

Definition add (a : number) (b : Z) : number :=
  match a with
  | Finite z => round (z + b)
  | Infinity => Infinity
  | NaN => NaN
  end.

(** One candidate of Number::toString: the digits [s] (there are [k] of
    them) and the position [n] of the decimal point, when [s * 10^(n-k)]
    rounds to [v]. *)
Definition candidate (v k n s : Z) : list (Z * Z) :=
  if (10 ^ (k - 1) <=? s) && (s <? 10 ^ k) && (k <=? n) then
    match round (s * 10 ^ (n - k)) with
    | Finite v' => if v' =? v then [(s, n)] else []
    | _ => []
    end
  else [].

Definition candidates (v d k : Z) : list (Z * Z) :=
  let lo := v / 10 ^ (d - k) in
  let lo' := v / 10 ^ (d + 1 - k) in
  candidate v k d lo ++ candidate v k d (lo + 1)
  ++ candidate v k (d + 1) lo' ++ candidate v k (d + 1) (lo' + 1).

(** Among the candidates with [k] digits, the one whose value is closest
    to [v]; on a tie the even one. *)
Definition closer (v k : Z) (a b : Z * Z) : Z * Z :=
  let da := Z.abs (fst a * 10 ^ (snd a - k) - v) in
  let db := Z.abs (fst b * 10 ^ (snd b - k) - v) in
  if da <? db then a
  else if db <? da then b
  else if Z.even (fst a) then a else b.

Definition closest (v k : Z) (l : list (Z * Z)) : option (Z * Z) :=
  match l with
  | [] => None
  | a :: l' => Some (fold_left (closer v k) l' a)
  end.

(** The smallest number of digits [k] that has a candidate. *)
Fixpoint shortest (fuel : nat) (v d k : Z) : Z * Z * Z :=
  match closest v k (candidates v d k) with
  | Some (s, n) => (s, k, n)
  | None =>
      match fuel with
      | O => (v, d, d)
      | S fuel' => shortest fuel' v d (k + 1)
      end
  end.

(** The digits of Number::toString (ECMA-262 6.1.6.1.20) for a positive
    integer [v]: the shortest [s] with [s * 10^(n-k)] rounding to [v],
    written plainly when [n <= 21] and with an exponent otherwise. *)
Definition toString_digits (v : Z) : string :=
  let d := Z.of_nat (String.length (decimal v)) in
  let '(s, k, n) := shortest (Z.to_nat d) v d 1 in
  if n <=? 21 then decimal s ++ Str.repeat "0" (Z.to_nat (n - k))
  else
    match decimal s with
    | String c EmptyString => String c ("e+" ++ decimal (n - 1))
    | String c ds => String c ("." ++ ds ++ "e+" ++ decimal (n - 1))
    | EmptyString => EmptyString
    end.

(** An integer up to [2^53] is written with all its digits: it is the
    only integer that rounds to itself, so those are the shortest ones. *)
Definition toString_nonneg (v : Z) : string :=
  if v <=? two53 then decimal v else toString_digits v.

(** Number::toString on the values of [number]. *)
Definition toString (x : number) : string :=
  match x with
  | NaN => "NaN"
  | Infinity => "Infinity"
  | Finite v =>
      if v <? 0 then String "-" (toString_nonneg (- v)) else toString_nonneg v
  end.

(** [parseInt] on a run of decimal digits (what [\d+] captures); on
    [undefined] it is [NaN]. *)
Definition parseInt (s : option string) : number :=
  match s with
  | Some (String c s') =>
      if Str.all is_digit (String c s') then round (digits_value 0 (String c s'))
      else NaN
  | _ => NaN
  end.

End Num.

(* ================================================================== *)
(** ** Regular expressions *)

Module RegExp.

(** A set of code units: a literal, [.] (anything but a line
    terminator) or a decimal digit ([\d], [[0-9]]). *)
Inductive charset : Type :=
| CLit (c : ascii)
| CAny
| CDigit.

Inductive quantifier : Type := Once | Star | Plus | Opt.

Inductive regex : Type :=
| Empty
| Atom (cs : charset) (q : quantifier)
| Seq (r1 r2 : regex)
| Alt (r1 r2 : regex)
| Capture (r : regex)
| AssertStart
| AssertEnd.

Definition is_line_terminator (c : ascii) : bool :=
  let n := nat_of_ascii c in (n =? 10)%nat || (n =? 13)%nat.

Definition charset_mem (cs : charset) (c : ascii) : bool :=
  match cs with
  | CLit a => Ascii.eqb a c
  | CAny => negb (is_line_terminator c)
  | CDigit => is_digit c
  end.

(** The state of a match: the input still to read, the index reached and
    the text of capture group 1 ([None] is [undefined]). *)
Record MatchState : Type := mkState {
  rest : string;
  endIndex : nat;
  capture1 : option string;
}.

Definition Continuation : Type := MatchState -> option MatchState.

Definition step_char (cs : charset) (c : Continuation) (x : MatchState)
  : option MatchState :=
  match rest x with
  | String ch s' =>
      if charset_mem cs ch
      then c (mkState s' (S (endIndex x)) (capture1 x))
      else None
  | EmptyString => None
  end.

(** Greedy repetition of one atom: take one more code unit first, fall
    back to the continuation. *)
Fixpoint repeat_greedy (cs : charset) (c : Continuation)
    (s : string) (i : nat) (cap : option string) : option MatchState :=
  match s with
  | String ch s' =>
      if charset_mem cs ch then
        match repeat_greedy cs c s' (S i) cap with
        | Some y => Some y
        | None => c (mkState s i cap)
        end
      else c (mkState s i cap)
  | EmptyString => c (mkState s i cap)
  end.

Fixpoint matcher (r : regex) (c : Continuation) (x : MatchState)
  : option MatchState :=
  match r with
  | Empty => c x
  | Atom cs Once => step_char cs c x
  | Atom cs Star => repeat_greedy cs c (rest x) (endIndex x) (capture1 x)
  | Atom cs Plus =>
      step_char cs
        (fun y => repeat_greedy cs c (rest y) (endIndex y) (capture1 y)) x
  | Atom cs Opt =>
      match step_char cs c x with
      | Some y => Some y
      | None => c x
      end
  | Seq r1 r2 => matcher r1 (matcher r2 c) x
  | Alt r1 r2 =>
      match matcher r1 c x with
      | Some y => Some y
      | None => matcher r2 c x
      end
  | Capture r' =>
      matcher r'
        (fun y =>
           c (mkState (rest y) (endIndex y)
                (Some (Str.take (endIndex y - endIndex x) (rest x)))))
        x
  | AssertStart => if (endIndex x =? 0)%nat then c x else None
  | AssertEnd =>
      match rest x with
      | EmptyString => c x
      | String _ _ => None
      end
  end.

(** RegExpBuiltinExec without flags: the first index at which the
    pattern matches. *)
Fixpoint exec_from (r : regex) (s : string) (i : nat) : option MatchState :=
  match matcher r (fun y => Some y) (mkState s i None) with
  | Some y => Some y
  | None =>
      match s with
      | EmptyString => None
      | String _ s' => exec_from r s' (S i)
      end
  end.

(** [s.match(r)]: [None] is [null], [Some y] carries [m[1]]. *)
Definition string_match (s : string) (r : regex) : option MatchState :=
  exec_from r s 0.

(** The next code unit, if any, is outside the set. *)
Definition stops (cs : charset) (t : string) : bool :=
  match t with
  | EmptyString => true
  | String ch _ => negb (charset_mem cs ch)
  end.

(** A run of literal code units. *)
Fixpoint literal (s : string) : regex :=
  match s with
  | EmptyString => Empty
  | String c s' => Seq (Atom (CLit c) Once) (literal s')
  end.

(** The atom that an ordinary character or [.] stands for. *)
Definition atom_of_plain (c : ascii) : charset :=
  if Ascii.eqb c "." then CAny else CLit c.

(** A run of atoms without quantifiers. *)
Fixpoint simple (s : string) : regex :=
  match s with
  | EmptyString => Empty
  | String c s' => Seq (Atom (atom_of_plain c) Once) (simple s')
  end.

(** The syntax characters of a pattern. *)
Definition is_syntax_char (c : ascii) : bool :=
  existsb (Ascii.eqb c)
    ["^"; "$"; "\"; "."; "*"; "+"; "?"; "("; ")"; "["; "]"; "{"; "}"; "|"]%char.

Definition quantifier_of (c : ascii) : option quantifier :=
  if Ascii.eqb c "*" then Some Star
  else if Ascii.eqb c "+" then Some Plus
  else if Ascii.eqb c "?" then Some Opt
  else None.

Definition atom_of (c : ascii) : option charset :=
  if Ascii.eqb c "." then Some CAny
  else if is_syntax_char c then None
  else Some (CLit c).

(** The pattern text that a configured prefix contributes.  The fragment
    read here is: ordinary characters, [.], and one greedy [*], [+] or
    [?] after an atom.  [None] stands for every other text: the ones
    [new RegExp] rejects and the ones outside the fragment. *)
Fixpoint parse_prefix (s : string) : option regex :=
  match s with
  | EmptyString => Some Empty
  | String a s1 =>
      match atom_of a with
      | None => None
      | Some cs =>
          match s1 with
          | String b s2 =>
              match quantifier_of b with
              | Some q =>
                  match s2 with
                  | String b' _ =>
                      match quantifier_of b' with
                      | Some _ => None
                      | None => option_map (Seq (Atom cs q)) (parse_prefix s2)
                      end
                  | EmptyString => Some (Seq (Atom cs q) Empty)
                  end
              | None => option_map (Seq (Atom cs Once)) (parse_prefix s1)
              end
          | EmptyString => Some (Seq (Atom cs Once) Empty)
          end
      end
  end.

End RegExp.

Import RegExp.

(* ================================================================== *)
(** ** Module constants and [flow] *)

(** The constants computed when the module is loaded. *)
Record Env : Type := mkEnv {
branch_prefix : string;
develop_branch_pattern : regex;
release_branch_pattern : regex;
}.

(** [(\d+)] followed by [k] *)
Definition digits_then (k : regex) : regex :=
  Seq (Capture (Atom CDigit Plus)) k.

(** [\.x$] *)
Definition dot_x_end : regex :=
  Seq (Atom (CLit ".") Once) (Seq (Atom (CLit "x") Once) AssertEnd).

(** [\.\d+$] *)
Definition dot_digits_end : regex :=
  Seq (Atom (CLit ".") Once) (Seq (Atom CDigit Plus) AssertEnd).

(** [new RegExp(`^${branch_prefix}(\\d+)\\.x$`)] *)
Definition develop_of (p : regex) : regex :=
  Seq AssertStart (Seq p (digits_then dot_x_end)).

(** [new RegExp(`^${branch_prefix}(\\d+)\\.\\d+$`)] *)
Definition release_of (p : regex) : regex :=
  Seq AssertStart (Seq p (digits_then dot_digits_end)).

Definition load (prefix : string) : option Env :=
  match parse_prefix prefix with
  | Some p => Some (mkEnv prefix (develop_of p) (release_of p))
  | None => None
  end.

(** Template-literal conversion of [m[1]]. *)
Definition capture_text (m : MatchState) : string :=
  match capture1 m with
  | Some s => s
  | None => "undefined"
  end.

Definition flow (env : Env) (branch : string) : option string :=
  match string_match branch (develop_branch_pattern env) with
  | Some m =>
      Some (branch_prefix env
            ++ Num.toString (Num.add (Num.parseInt (capture1 m)) 1) ++ ".x")
  | None =>
      match string_match branch (release_branch_pattern env) with
      | Some m => Some (branch_prefix env ++ capture_text m ++ ".x")
      | None => None
      end
  end.

(** [resolve(branchName, prefix)] of the specification: load, then [flow].
  The outer [None] is a prefix outside the fragment of [parse_prefix]. *)
Definition resolve (branch prefix : string) : option (option string) :=
  option_map (fun env => flow env branch) (load prefix).

(** [/-merge-[0-9]+\.([0-9]+|x)$/] *)
Definition cleanup_pattern : regex :=
  Seq (literal "-merge-")
    (Seq (Atom CDigit Plus)
       (Seq (Atom (CLit ".") Once)
          (Seq (Capture (Alt (Atom CDigit Plus) (Atom (CLit "x") Once)))
             AssertEnd))).

(* ================================================================== *)
(** ** The remote repository and the messages *)

(** A thrown value, by its [message]. *)
Definition error : Type := string.

(** [github.context.payload.pull_request], by the fields that are read. *)
Record PullRequest : Type := mkPull {
base_ref : string;          (* pull.base.ref *)
head_ref : string;          (* pull.head.ref *)
head_sha : string;          (* pull.head.sha *)
pull_number : Z;            (* pull.number *)
user_login : string;        (* pull.user.login *)
owner : string;             (* pull.base.repo.owner.login *)
repo : string;              (* pull.base.repo.name *)
}.

(** The calls made through [octokit]. *)
Inductive request : Type :=
| DeleteRef (owner repo ref : string)
| GetBranch (owner repo branch : string)
| CreateRef (owner repo ref sha : string)
| Merge (owner repo base head : string)
| PullsCreate (owner repo title base head body : string)
| GetPullRequestId (owner repo : string) (pullRequestNumber : Z)
| EnablePullRequestAutoMerge (pullRequestId mergeMethod : string)
| IssuesUpdate (owner repo : string) (issue_number : Z) (assignees : list string).

(** What a resolved call carries, by the fields that are read:
  [data.number] and [repository.pullRequest.id]. *)
Record response : Type := mkResponse {
data_number : Z;
data_id : string;
}.

Inductive result : Type :=
| Resolved (r : response)
| Rejected (e : error).

Inductive outcome : Type :=
| Succeeded
| Failed (e : error).

Inductive message : Type :=
| ConsoleLog (s : string)
| CoreInfo (s : string)
| CoreWarning (s : string)
| CoreError (e : error)
| CoreSetFailed (s : string).

(* ================================================================== *)
(** ** The monad of [run] *)

Inductive completion (A : Type) : Type :=
| Normal (a : A)
| Return
| Throw (e : error).

Arguments Normal {A} a.
Arguments Return {A}.
Arguments Throw {A} e.

Section Orchestrator.

Variable World : Type.
(** The remote service: a call changes the world and resolves or rejects. *)
Variable api : request -> World -> World * result.
(** [Date.now()] *)
Variable date_now : World -> Z.

Record State : Type := mkSt {
  world : World;
  calls : list (request * outcome);   (* oldest first *)
  output : list message;              (* oldest first *)
}.

Definition M (A : Type) : Type := State -> State * completion A.

Definition ret {A} (a : A) : M A := fun st => (st, Normal a).

Definition bind {A B} (m : M A) (k : A -> M B) : M B :=
  fun st =>
    match m st with
    | (st', Normal a) => k a st'
    | (st', Return) => (st', Return)
    | (st', Throw e) => (st', Throw e)
    end.

Definition return_ {A} : M A := fun st => (st, Return).

(** [try { body } catch (err) { handler }] *)
Definition try_catch {A} (body : M A) (handler : error -> M A) : M A :=
  fun st =>
    match body st with
    | (st', Throw e) => handler e st'
    | other => other
    end.

(** The body of a function whose [return] carries no value. *)
Definition function_body (body : M unit) : M unit :=
  fun st =>
    match body st with
    | (st', Return) => (st', Normal tt)
    | other => other
    end.

(** [await octokit...(request)] *)
Definition await (req : request) : M response :=
  fun st =>
    match api req (world st) with
    | (w', Resolved r) =>
        (mkSt w' (calls st ++ [(req, Succeeded)]) (output st), Normal r)
    | (w', Rejected e) =>
        (mkSt w' (calls st ++ [(req, Failed e)]) (output st), Throw e)
    end.

Definition emit (m : message) : M unit :=
  fun st => (mkSt (world st) (calls st) (output st ++ [m]), Normal tt).

Definition now : M Z := fun st => (st, Normal (date_now (world st))).

Definition console_log (s : string) : M unit := emit (ConsoleLog s).
Definition core_info (s : string) : M unit := emit (CoreInfo s).
Definition core_warning (s : string) : M unit := emit (CoreWarning s).
Definition core_error (e : error) : M unit := emit (CoreError e).
Definition core_setFailed (s : string) : M unit := emit (CoreSetFailed s).

Notation "x <- m ;; k" := (bind m (fun x => k))
  (at level 61, m at next level, right associativity).
Notation "m ;; k" := (bind m (fun _ => k))
  (at level 61, right associativity).

(* ---------------------------------------------------------------- *)
(** ** [enablePullRequestAutomerge] and [run] *)

Variable env : Env.
Variable pull : PullRequest.

Definition enablePullRequestAutomerge (number : Z) : M unit :=
  response <- await (GetPullRequestId (owner pull) (repo pull) number) ;;
  let prid := data_id response in
  _ <- await (EnablePullRequestAutoMerge prid "MERGE") ;;
  ret tt.

(** Template-literal conversion of [target], which may be [null]. *)
Definition show_target (target : option string) : string :=
  match target with
  | Some t => t
  | None => "null"
  end.

Definition show_number (n : Z) : string := Num.toString (Finite n).

Definition candidate_name (branch target : string) : string :=
  branch ++ "-merge-" ++ target.

Definition retry_name (branch : string) (t : Z) (target : string) : string :=
  branch ++ "-" ++ show_number t ++ "-merge-" ++ target.

Definition pull_title (branch target : string) : string :=
  "Merge branch '" ++ branch ++ "' into " ++ target.

Definition pull_body (base_ref target new_branch : string) : string :=
  "This pull request was automatically generated from #"
  ++ show_number (pull_number pull)
  ++ " to ensure that the changes introduced into `" ++ base_ref
  ++ "` by that pull request also make their way into the `" ++ target
  ++ "` branch.

  If there are merge conflicts, try merging `" ++ target ++ "` into this branch.
  ```bash
  git fetch origin
  git checkout -b " ++ new_branch ++ " origin/" ++ new_branch ++ "
  git merge origin/" ++ target ++ "
  # resolve any conflicts
  git push origin " ++ new_branch ++ "
  ```
  ".

Definition run : M unit :=
  function_body
    (try_catch
       (let base_ref := base_ref pull in
        let target := flow env base_ref in
        let branch := head_ref pull in
        console_log (branch ++ ": " ++ base_ref ++ " -> " ++ show_target target) ;;
        match target with
        | None =>
            core_warning
              ("Base branch is not a release or development branch: "
               ++ base_ref ++ " (branch-prefix: " ++ branch_prefix env ++ ")") ;;
            return_
        | Some target =>
            (* clean up old merge-down branch *)
            match string_match branch cleanup_pattern with
            | Some _ =>
                console_log ("Cleaning up old merge-down branch: " ++ branch) ;;
                try_catch
                  (_ <- await (DeleteRef (owner pull) (repo pull) ("heads/" ++ branch)) ;;
                   ret tt)
                  (fun err =>
                     core_error err ;;
                     core_warning "Failed to delete old merge-down branch")
            | None => ret tt
            end ;;
            (* check if target branch exists *)
            try_catch
              (_ <- await (GetBranch (owner pull) (repo pull) target) ;; ret tt)
              (fun err =>
                 core_error err ;;
                 core_warning
                   ("Skipping merge-down for non-existant branch: '" ++ target ++ "'") ;;
                 return_) ;;
            (* create new "merge candidate" branch *)
            let new_branch := candidate_name branch target in
            console_log ("Creating new remote branch: " ++ new_branch) ;;
            new_branch <-
              try_catch
                (_ <- await (CreateRef (owner pull) (repo pull)
                               ("refs/heads/" ++ new_branch) (head_sha pull)) ;;
                 ret new_branch)
                (fun err =>
                   core_error err ;;
                   (* try again with a unix timestamp thrown in *)
                   t <- now ;;
                   let new_branch := retry_name branch t target in
                   core_warning ("Branch exists, creating '" ++ new_branch ++ "' instead") ;;
                   _ <- await (CreateRef (owner pull) (repo pull)
                                 ("refs/heads/" ++ new_branch) (head_sha pull)) ;;
                   ret new_branch) ;;
            (* attempt to merge target branch into new branch *)
            console_log
              ("Updating branch (merging '" ++ target ++ "' into '" ++ new_branch ++ ")") ;;
            automerge <-
              try_catch
                (_ <- await (Merge (owner pull) (repo pull) new_branch target) ;;
                 ret true)
                (fun err =>
                   core_error err ;;
                   core_warning
                     ("GitHub failed to merge " ++ target ++ " into " ++ new_branch) ;;
                   ret false) ;;
            (* create pull request *)
            console_log
              ("Creating pull request to merge '" ++ new_branch ++ "' into " ++ target) ;;
            let title := pull_title branch target in
            let body := pull_body base_ref target new_branch in
            new_pull <-
              await (PullsCreate (owner pull) (repo pull) title target new_branch body) ;;
            core_info ("Created pull request: #" ++ show_number (data_number new_pull)) ;;
            (* enable auto-merge (unless update failed) *)
            (if automerge : bool then
               try_catch
                 (enablePullRequestAutomerge (data_number new_pull))
                 (fun err =>
                    core_error err ;;
                    core_warning "Failed to enable auto-merge") ;;
               console_log "Auto-merge enabled"
             else
               core_warning "Skipping auto-merge because there are merge conflicts") ;;
            (* assign pull request to author of original pull request *)
            let actor := user_login pull in
            console_log ("Assigning pull request to '" ++ actor ++ "'") ;;
            try_catch
              (_ <- await (IssuesUpdate (owner pull) (repo pull)
                             (data_number new_pull) [actor]) ;;
               ret tt)
              (fun err =>
                 core_error err ;;
                 core_warning
                   ("Failed to assign #" ++ show_number (data_number new_pull)
                    ++ " to " ++ actor))
        end)
       (fun error => core_setFailed error)).

(** One invocation, from a world with nothing called and nothing written. *)
Definition invoke (w : World) : State := fst (run (mkSt w [] [])).

End Orchestrator.

Arguments world {World} _.
Arguments calls {World} _.
Arguments output {World} _.

(* ================================================================== *)
(** ** What an invocation leaves behind *)

Module Obs.

Definition is_deleteRef (r : request) : bool :=
  match r with DeleteRef _ _ _ => true | _ => false end.
Definition is_getBranch (r : request) : bool :=
  match r with GetBranch _ _ _ => true | _ => false end.
Definition is_createRef (r : request) : bool :=
  match r with CreateRef _ _ _ _ => true | _ => false end.
Definition is_merge (r : request) : bool :=
  match r with Merge _ _ _ _ => true | _ => false end.
Definition is_pullsCreate (r : request) : bool :=
  match r with PullsCreate _ _ _ _ _ _ => true | _ => false end.
Definition is_automerge (r : request) : bool :=
  match r with
  | GetPullRequestId _ _ _ | EnablePullRequestAutoMerge _ _ => true
  | _ => false
  end.
Definition is_issuesUpdate (r : request) : bool :=
  match r with IssuesUpdate _ _ _ _ => true | _ => false end.

Definition succeeded (o : outcome) : bool :=
  match o with Succeeded => true | Failed _ => false end.

(** The calls of one kind, oldest first. *)
Definition of_kind (p : request -> bool) (tr : list (request * outcome))
  : list (request * outcome) :=
  filter (fun c => p (fst c)) tr.

(** How many calls of a kind were made, and how many took effect. *)
Definition attempts (p : request -> bool) (tr : list (request * outcome)) : nat :=
  List.length (of_kind p tr).
Definition effects (p : request -> bool) (tr : list (request * outcome)) : nat :=
  List.length (filter (fun c => succeeded (snd c)) (of_kind p tr)).

(** The exit status: [core.setFailed] was called. *)
Definition failed (out : list message) : bool :=
  existsb (fun m => match m with CoreSetFailed _ => true | _ => false end) out.

Definition warnings (out : list message) : list string :=
  flat_map (fun m => match m with CoreWarning s => [s] | _ => [] end) out.

(** The second [createRef] call, the retry, was made and rejected. *)
Definition retry_failed (tr : list (request * outcome)) : bool :=
  match of_kind is_createRef tr with
  | _ :: (_, Failed _) :: _ => true
  | _ => false
  end.

(** The first [createRef] call was rejected. *)
Definition first_create_failed (tr : list (request * outcome)) : bool :=
  match of_kind is_createRef tr with
  | (_, Failed _) :: _ => true
  | _ => false
  end.

Definition pulls_create_failed (tr : list (request * outcome)) : bool :=
  existsb (fun c => negb (succeeded (snd c))) (of_kind is_pullsCreate tr).

(** The rejections that the table of steps calls non-fatal: every one
    but those of the retry and of [pulls.create]. *)
Fixpoint nonfatal_failures (seen_create : bool) (tr : list (request * outcome))
  : list error :=
  match tr with
  | [] => []
  | (req, o) :: tr' =>
      let later := nonfatal_failures (seen_create || is_createRef req) tr' in
      match o with
      | Failed e =>
          if is_pullsCreate req || (is_createRef req && seen_create)
          then later else e :: later
      | Succeeded => later
      end
  end.

(** [core.error(e)] directly followed by a [core.warning]. *)
Inductive warned (e : error) : list message -> Prop :=
| warned_here w out : warned e (CoreError e :: CoreWarning w :: out)
| warned_later m out : warned e out -> warned e (m :: out).

End Obs.

(** Names as the specification words them. *)
Module Spec.

Definition digit_run (ds : string) : Prop :=
  ds <> EmptyString /\ Str.all is_digit ds = true.

(** [<prefix><N>.x] *)
Definition development_name (prefix branch : string) : Prop :=
  exists ds, digit_run ds /\ branch = prefix ++ ds ++ ".x".

(** [<prefix><N>.<M>] *)
Definition release_name (prefix branch : string) : Prop :=
  exists ds ms, digit_run ds /\ digit_run ms /\ branch = prefix ++ ds ++ "." ++ ms.

(** A prefix without pattern syntax. *)
Definition plain (prefix : string) : bool :=
  Str.all (fun c => negb (is_syntax_char c)) prefix.

(** A prefix whose only pattern syntax is [.]: every character stands for
    one code unit. *)
Definition unquantified (prefix : string) : bool :=
  Str.all (fun c => Ascii.eqb c "." || negb (is_syntax_char c)) prefix.

End Spec.

(* ================================================================== *)
(** ** Scripted invocations *)

(** A remote service that plays a script: the world is the list of the
    outcomes still to come, [true] for a call that resolves; past the end
    of the script every call resolves. *)
Module Scenario.

Definition reply : response := mkResponse 42 "PR_kwDOAbc123".

Definition scripted (req : request) (script : list bool) : list bool * result :=
  match script with
  | [] => ([], Resolved reply)
  | true :: script' => (script', Resolved reply)
  | false :: script' => (script', Rejected "HttpError")
  end.

Definition clock (_ : list bool) : Z := 1700000000000.

(** The constants of the module for a prefix of one atom per character. *)
Definition env_of (prefix : string) : Env :=
  mkEnv prefix (develop_of (simple prefix)) (release_of (simple prefix)).

(** The event of a pull request from [head] merged into [base]. *)
Definition merged (base head : string) : PullRequest :=
  mkPull base head "0a1b2c3" 17 "octocat" "mcneel" "rhino".

Definition play (prefix base head : string) (script : list bool)
  : State (list bool) :=
  invoke (list bool) scripted clock (env_of prefix) (merged base head) script.

(** A remote service that keeps refs, after the contract of the
    operations in the specification: a ref is created unless it exists, a
    branch is found or a ref deleted only if it exists, and the other
    calls resolve. *)
Record Repo : Type := mkRepo {
  refs : list string;
  time : Z;
}.

Definition has_ref (ref : string) (r : Repo) : bool :=
  existsb (String.eqb ref) (refs r).

Definition hosted (req : request) (r : Repo) : Repo * result :=
  match req with
  | DeleteRef _ _ ref =>
      if has_ref ("refs/" ++ ref) r
      then (mkRepo (filter (fun x => negb (String.eqb ("refs/" ++ ref) x)) (refs r))
              (time r), Resolved reply)
      else (r, Rejected "Reference does not exist")
  | GetBranch _ _ branch =>
      if has_ref ("refs/heads/" ++ branch) r
      then (r, Resolved reply)
      else (r, Rejected "Branch not found")
  | CreateRef _ _ ref _ =>
      if has_ref ref r
      then (r, Rejected "Reference already exists")
      else (mkRepo (refs r ++ [ref]) (time r), Resolved reply)
  | _ => (r, Resolved reply)
  end.

Definition replay (prefix base head : string) (r : Repo) : State Repo :=
  invoke Repo hosted time (env_of prefix) (merged base head) r.

(** A repository with the branches [1.x] and [2.x]. *)
Definition repo0 : Repo :=
  mkRepo ["refs/heads/1.x"; "refs/heads/2.x"] 1700000000000.

End Scenario.

(* ================================================================== *)
(** ** Reading a trace *)

Module Trace.

(** The last call made and the last message written. *)
Definition last_call (tr : list (request * outcome)) : option (request * outcome) :=
  List.last (map Some tr) None.

Definition last_message (out : list message) : option message :=
  List.last (map Some out) None.

(** The values passed to [core.error], oldest first. *)
Definition errors (out : list message) : list error :=
  flat_map (fun m => match m with CoreError e => [e] | _ => [] end) out.

(** How often [core.setFailed] was called. *)
Definition set_failed_count (out : list message) : nat :=
  List.length
    (filter (fun m => match m with CoreSetFailed _ => true | _ => false end) out).

Definition all_succeeded (tr : list (request * outcome)) : bool :=
  forallb (fun c => Obs.succeeded (snd c)) tr.



End Trace.

(** [[0-9]+\.([0-9]+|x)$], what the cleanup pattern asks for after
    [-merge-]. *)
Definition version_end : regex :=
  Seq (Atom CDigit Plus)
    (Seq (Atom (CLit ".") Once)
       (Seq (Capture (Alt (Atom CDigit Plus) (Atom (CLit "x") Once))) AssertEnd)).

(* ================================================================== *)
(** * Properties *)

(** ** Strings and numerals *)

Section StringFacts.

Lemma append_assoc (a b c : string) : (a ++ b) ++ c = a ++ (b ++ c).
Proof. induction a as [|x a IH]; simpl; [reflexivity | now rewrite IH]. Qed.

Lemma append_nil_r (a : string) : a ++ "" = a.
Proof. induction a as [|x a IH]; simpl; [reflexivity | now rewrite IH]. Qed.

Lemma length_append (a b : string) :
  String.length (a ++ b) = (String.length a + String.length b)%nat.
Proof. induction a as [|x a IH]; simpl; [reflexivity | now rewrite IH]. Qed.

Lemma take_append (a b : string) : Str.take (String.length a) (a ++ b) = a.
Proof. induction a as [|x a IH]; simpl; [now destruct b | now rewrite IH]. Qed.

Lemma all_append p (a b : string) :
  Str.all p (a ++ b) = Str.all p a && Str.all p b.
Proof.
  induction a as [|x a IH]; simpl; [reflexivity|].
  now rewrite IH, andb_assoc.
Qed.

Lemma starts_with_append (p s : string) : Str.starts_with p (p ++ s) = true.
Proof.
  induction p as [|x p IH]; simpl; [reflexivity|].
  now rewrite Ascii.eqb_refl, IH.
Qed.

Lemma starts_with_split (p s : string) :
  Str.starts_with p s = true -> exists t, s = p ++ t.
Proof.
  revert s; induction p as [|x p IH]; intros s H; simpl in *.
  - now exists s.
  - destruct s as [|y s]; [discriminate|].
    apply andb_true_iff in H as [Hxy Hp].
    apply Ascii.eqb_eq in Hxy; subst y.
    destruct (IH _ Hp) as [t ->]. now exists t.
Qed.

Lemma digits_value_append (a b : string) (acc : Z) :
  digits_value acc (a ++ b) = digits_value (digits_value acc a) b.
Proof. revert acc; induction a as [|x a IH]; intros; simpl; [reflexivity | apply IH]. Qed.

Lemma digit_char_spec (d : Z) :
  0 <= d < 10 ->
  is_digit (digit_char d) = true /\ digit_val (digit_char d) = d.
Proof.
  intros H.
  assert (d = 0 \/ d = 1 \/ d = 2 \/ d = 3 \/ d = 4 \/ d = 5 \/ d = 6
          \/ d = 7 \/ d = 8 \/ d = 9) as E by lia.
  repeat (destruct E as [-> | E]; [split; reflexivity|]).
  subst d; split; reflexivity.
Qed.

Lemma decimal_loop_spec (fuel : nat) :
  forall z acc,
    0 <= z < 10 ^ (Z.of_nat fuel + 1) ->
    exists ds,
      decimal_loop fuel z acc = ds ++ acc
      /\ Spec.digit_run ds /\ digits_value 0 ds = z.
Proof.
  assert (base : forall z acc, 0 <= z < 10 ->
            exists ds, String (digit_char (z mod 10)) acc = ds ++ acc
                       /\ Spec.digit_run ds /\ digits_value 0 ds = z).
  { intros z acc Hz. exists (String (digit_char z) "").
    rewrite Z.mod_small by lia.
    destruct (digit_char_spec z Hz) as [Hd Hv].
    repeat split; simpl; try discriminate.
    - now rewrite Hd.
    - lia. }
  induction fuel as [|fuel IH]; intros z acc Hz.
  - simpl. apply base. simpl in Hz. lia.
  - cbn [decimal_loop].
    destruct (z <? 10) eqn:Hlt.
    + apply base. apply Z.ltb_lt in Hlt. lia.
    + apply Z.ltb_ge in Hlt.
      assert (Hdiv : 0 <= z / 10 < 10 ^ (Z.of_nat fuel + 1)).
      { split; [apply Z.div_pos; lia|].
        apply Z.div_lt_upper_bound; [lia|].
        replace (Z.of_nat (S fuel) + 1) with (Z.succ (Z.of_nat fuel + 1)) in Hz by lia.
        rewrite Z.pow_succ_r in Hz by lia. lia. }
      destruct (IH (z / 10) (String (digit_char (z mod 10)) acc) Hdiv)
        as (ds & Heq & [Hne Hall] & Hval).
      assert (Hm : 0 <= z mod 10 < 10) by (apply Z.mod_pos_bound; lia).
      destruct (digit_char_spec _ Hm) as [Hd Hv].
      exists (ds ++ String (digit_char (z mod 10)) "").
      rewrite append_assoc. simpl. repeat split.
      * exact Heq.
      * destruct ds; [now elim Hne | discriminate].
      * rewrite all_append, Hall. simpl. now rewrite Hd.
      * rewrite digits_value_append, Hval. cbn [digits_value]. rewrite Hv.
        pose proof (Z.div_mod z 10 ltac:(lia)). lia.
Qed.

(** [decimal] writes a numeral whose value is the number. *)
Lemma decimal_spec (z : Z) :
  0 <= z -> Spec.digit_run (decimal z) /\ digits_value 0 (decimal z) = z.
Proof.
  intros Hz. unfold decimal.
  destruct (decimal_loop_spec (Z.to_nat (Z.log2 z)) z "") as (ds & Heq & Hrun & Hval).
  - split; [exact Hz|].
    rewrite Z2Nat.id by apply Z.log2_nonneg.
    destruct (Z.eq_dec z 0) as [-> | Hnz]; [reflexivity|].
    assert (z < 2 ^ (Z.log2 z + 1)).
    { pose proof (Z.log2_spec z ltac:(lia)) as [_ H].
      now rewrite <- Z.add_1_r in H. }
    assert (2 ^ (Z.log2 z + 1) <= 10 ^ (Z.log2 z + 1)).
    { apply Z.pow_le_mono_l. lia. }
    lia.
  - rewrite append_nil_r in Heq. rewrite Heq. now split.
Qed.

End StringFacts.


(** ** The matcher *)

Section MatcherFacts.

Lemma matcher_literal (p : string) :
  forall c s i cap,
    matcher (literal p) c (mkState (p ++ s) i cap)
    = c (mkState s (i + String.length p)%nat cap).
Proof.
  induction p as [|a p IH]; intros c s i cap; simpl.
  - now rewrite Nat.add_0_r.
  - unfold step_char; simpl. rewrite Ascii.eqb_refl, IH.
    now rewrite Nat.add_succ_r.
Qed.

Lemma matcher_literal_inv (p : string) :
  forall c s i cap y,
    matcher (literal p) c (mkState s i cap) = Some y ->
    exists t, s = p ++ t /\ c (mkState t (i + String.length p)%nat cap) = Some y.
Proof.
  induction p as [|a p IH]; intros c s i cap y H; simpl in H.
  - exists s. now rewrite Nat.add_0_r.
  - unfold step_char in H; simpl in H.
    destruct s as [|b s]; [discriminate|].
    destruct (Ascii.eqb a b) eqn:E; [|discriminate].
    apply Ascii.eqb_eq in E; subst b.
    destruct (IH _ _ _ _ _ H) as (t & -> & Hc).
    exists t. split; [reflexivity|].
    simpl. now rewrite Nat.add_succ_r.
Qed.

(** A greedy run takes every code unit of the set when what follows
    then matches. *)
Lemma repeat_greedy_all (cs : charset) (c : Continuation) (ds : string) :
  forall t i cap y,
    Str.all (charset_mem cs) ds = true ->
    stops cs t = true ->
    c (mkState t (i + String.length ds)%nat cap) = Some y ->
    repeat_greedy cs c (ds ++ t) i cap = Some y.
Proof.
  induction ds as [|d ds IH]; intros t i cap y Hall Hstop Hc; simpl in *.
  - rewrite Nat.add_0_r in Hc.
    destruct t as [|ch t]; simpl in *; [exact Hc|].
    apply negb_true_iff in Hstop. now rewrite Hstop.
  - apply andb_true_iff in Hall as [Hd Hall]. rewrite Hd.
    rewrite (IH t (S i) cap y Hall Hstop); [reflexivity|].
    now rewrite Nat.add_succ_r in Hc.
Qed.

(** Whatever a greedy run ends with, it has read code units of the set
    and what follows matched. *)
Lemma repeat_greedy_inv (cs : charset) (c : Continuation) (s : string) :
  forall i cap y,
    repeat_greedy cs c s i cap = Some y ->
    exists ds t,
      s = ds ++ t /\ Str.all (charset_mem cs) ds = true
      /\ c (mkState t (i + String.length ds)%nat cap) = Some y.
Proof.
  induction s as [|ch s IH]; intros i cap y H; simpl in H.
  - exists "", "". simpl. now rewrite Nat.add_0_r.
  - assert (stay : c (mkState (String ch s) i cap) = Some y ->
                   exists ds t, String ch s = ds ++ t
                     /\ Str.all (charset_mem cs) ds = true
                     /\ c (mkState t (i + String.length ds)%nat cap) = Some y).
    { intros Hc. exists "", (String ch s). simpl. now rewrite Nat.add_0_r. }
    destruct (charset_mem cs ch) eqn:Hm; [|now apply stay].
    destruct (repeat_greedy cs c s (S i) cap) as [y'|] eqn:Hr; [|now apply stay].
    injection H as ->.
    destruct (IH _ _ _ Hr) as (ds & t & -> & Hall & Hc).
    exists (String ch ds), t. simpl. rewrite Hm, Hall.
    now rewrite Nat.add_succ_r.
Qed.

(** Away from index 0 a pattern that opens with [^] matches nothing. *)
Lemma exec_from_anchored (r : regex) (s : string) :
  forall i, exec_from (Seq AssertStart r) s (S i) = None.
Proof.
  induction s as [|ch s IH]; intros i; simpl; [reflexivity | apply IH].
Qed.

Lemma string_match_anchored (r : regex) (s : string) :
  string_match s (Seq AssertStart r)
  = matcher r (fun y => Some y) (mkState s 0 None).
Proof.
  unfold string_match.
  destruct s as [|ch s]; simpl.
  - now destruct (matcher r _ _).
  - rewrite exec_from_anchored. now destruct (matcher r _ _).
Qed.

(** [(\d+)] on a run of digits followed by something that [k] accepts. *)
Lemma matcher_digits (k : regex) (ds t : string) (i : nat) (y : MatchState) :
  Spec.digit_run ds ->
  stops CDigit t = true ->
  matcher k (fun y => Some y) (mkState t (i + String.length ds)%nat (Some ds)) = Some y ->
  matcher (digits_then k) (fun y => Some y) (mkState (ds ++ t) i None) = Some y.
Proof.
  intros [Hne Hall] Hstop Hk.
  destruct ds as [|d ds]; [now elim Hne|].
  simpl in Hall. apply andb_true_iff in Hall as [Hd Hall].
  cbn [digits_then matcher]. unfold step_char.
  cbn [rest endIndex capture1 append charset_mem]. rewrite Hd.
  apply repeat_greedy_all; [exact Hall | exact Hstop |].
  cbn [rest endIndex capture1].
  replace (S i + String.length ds - i)%nat with (String.length (String d ds))
    by (cbn [String.length]; lia).
  change (String d (ds ++ t)) with (String d ds ++ t).
  rewrite take_append.
  simpl in Hk. now rewrite Nat.add_succ_r in Hk.
Qed.

Lemma matcher_digits_inv (k : regex) (s : string) (i : nat) (y : MatchState) :
  matcher (digits_then k) (fun y => Some y) (mkState s i None) = Some y ->
  exists ds t,
    s = ds ++ t /\ Spec.digit_run ds
    /\ matcher k (fun y => Some y) (mkState t (i + String.length ds)%nat (Some ds)) = Some y.
Proof.
  cbn [digits_then matcher]. unfold step_char.
  cbn [rest endIndex capture1 charset_mem].
  destruct s as [|d s]; [discriminate|].
  destruct (is_digit d) eqn:Hd; [|discriminate].
  intros H. apply repeat_greedy_inv in H as (ds & t & -> & Hall & Hk).
  exists (String d ds), t. repeat split.
  - discriminate.
  - change (Str.all is_digit ds = true) in Hall.
    simpl. now rewrite Hd, Hall.
  - cbn [rest endIndex capture1] in Hk.
    replace (S i + String.length ds - i)%nat with (String.length (String d ds)) in Hk
      by (cbn [String.length]; lia).
    change (String d (ds ++ t)) with (String d ds ++ t) in Hk.
    rewrite take_append in Hk.
    simpl. now rewrite Nat.add_succ_r.
Qed.

Lemma dot_x_end_inv (t : string) (i : nat) cap y :
  matcher dot_x_end (fun y => Some y) (mkState t i cap) = Some y ->
  t = ".x" /\ capture1 y = cap.
Proof.
  cbn [dot_x_end matcher]. unfold step_char. cbn [rest endIndex capture1 charset_mem].
  destruct t as [|a t]; [discriminate|].
  destruct (Ascii.eqb "." a) eqn:Ea; [|discriminate].
  destruct t as [|b t]; [discriminate|].
  destruct (Ascii.eqb "x" b) eqn:Eb; [|discriminate].
  destruct t; [|discriminate].
  apply Ascii.eqb_eq in Ea, Eb. subst. intros [= <-]. now split.
Qed.

Lemma dot_digits_end_ok (ms : string) (i : nat) cap :
  Spec.digit_run ms ->
  exists y, matcher dot_digits_end (fun y => Some y) (mkState ("." ++ ms) i cap) = Some y
            /\ capture1 y = cap.
Proof.
  intros [Hne Hall].
  destruct ms as [|m ms]; [now elim Hne|].
  simpl in Hall. apply andb_true_iff in Hall as [Hm Hall].
  cbn [dot_digits_end matcher append]. unfold step_char.
  cbn [rest endIndex capture1 charset_mem]. rewrite Ascii.eqb_refl, Hm.
  exists (mkState "" (S (S i) + String.length ms)%nat cap).
  split; [|reflexivity].
  match goal with
  | |- repeat_greedy _ ?c _ _ _ = _ =>
      pose proof (repeat_greedy_all CDigit c ms "" (S (S i)) cap _ Hall eq_refl eq_refl) as H
  end.
  now rewrite append_nil_r in H.
Qed.

Lemma dot_digits_end_inv (t : string) (i : nat) cap y :
  matcher dot_digits_end (fun y => Some y) (mkState t i cap) = Some y ->
  (exists ms, Spec.digit_run ms /\ t = "." ++ ms) /\ capture1 y = cap.
Proof.
  cbn [dot_digits_end matcher]. unfold step_char. cbn [rest endIndex capture1 charset_mem].
  destruct t as [|a t]; [discriminate|].
  destruct (Ascii.eqb "." a) eqn:Ea; [|discriminate].
  apply Ascii.eqb_eq in Ea. subst a.
  destruct t as [|m t]; [discriminate|].
  destruct (is_digit m) eqn:Hm; [|discriminate].
  intros H. apply repeat_greedy_inv in H as (ds & u & -> & Hall & Hk).
  cbn [rest] in Hk. destruct u; [|discriminate].
  injection Hk as <-. split; [|reflexivity].
  exists (String m ds). rewrite append_nil_r. repeat split.
  - discriminate.
  - change (Str.all is_digit ds = true) in Hall.
    simpl. now rewrite Hm, Hall.
Qed.

End MatcherFacts.


(** ** Prefixes and the two branch patterns *)

Section PatternFacts.

Lemma quantifier_is_syntax (c : ascii) (q : quantifier) :
  quantifier_of c = Some q -> is_syntax_char c = true /\ Ascii.eqb c "." = false.
Proof.
  unfold quantifier_of.
  destruct (Ascii.eqb c "*") eqn:E1;
    [apply Ascii.eqb_eq in E1; subst; now split|].
  destruct (Ascii.eqb c "+") eqn:E2;
    [apply Ascii.eqb_eq in E2; subst; now split|].
  destruct (Ascii.eqb c "?") eqn:E3;
    [apply Ascii.eqb_eq in E3; subst; now split|].
  discriminate.
Qed.

Lemma unquantified_char (c : ascii) :
  Ascii.eqb c "." || negb (is_syntax_char c) = true ->
  atom_of c = Some (atom_of_plain c) /\ quantifier_of c = None
  /\ charset_mem (atom_of_plain c) c = true.
Proof.
  intros H. unfold atom_of, atom_of_plain.
  destruct (Ascii.eqb c ".") eqn:Edot.
  - apply Ascii.eqb_eq in Edot; subst. repeat split.
  - simpl in H. apply negb_true_iff in H. rewrite H. repeat split.
    + destruct (quantifier_of c) as [q|] eqn:Eq; [|reflexivity].
      apply quantifier_is_syntax in Eq as [Eq _]. congruence.
    + simpl. apply Ascii.eqb_refl.
Qed.

(** A prefix whose only syntax is [.] is read as one atom per character. *)
Lemma parse_unquantified (p : string) :
  Spec.unquantified p = true -> parse_prefix p = Some (simple p).
Proof.
  induction p as [|a p IH]; intros H; [reflexivity|].
  cbn [Spec.unquantified Str.all] in H.
  apply andb_true_iff in H as [Ha Hp].
  destruct (unquantified_char a Ha) as (Hatom & _ & _).
  cbn [parse_prefix]. rewrite Hatom.
  destruct p as [|b p]; [reflexivity|].
  pose proof Hp as Hp'.
  cbn [Str.all] in Hp'. apply andb_true_iff in Hp' as [Hb _].
  destruct (unquantified_char b Hb) as (_ & Hq & _).
  rewrite Hq. rewrite (IH Hp). reflexivity.
Qed.

Lemma plain_unquantified (p : string) :
  Spec.plain p = true -> Spec.unquantified p = true.
Proof.
  induction p as [|a p IH]; [reflexivity|].
  cbn [Spec.plain Spec.unquantified Str.all].
  intros H. apply andb_true_iff in H as [Ha Hp].
  rewrite Ha, orb_true_r. exact (IH Hp).
Qed.

Lemma simple_plain (p : string) : Spec.plain p = true -> simple p = literal p.
Proof.
  induction p as [|a p IH]; [reflexivity|].
  cbn [Spec.plain Str.all]. intros H. apply andb_true_iff in H as [Ha Hp].
  cbn [simple literal]. rewrite (IH Hp). unfold atom_of_plain.
  destruct (Ascii.eqb a ".") eqn:E; [|reflexivity].
  apply Ascii.eqb_eq in E; subst a. discriminate Ha.
Qed.

Lemma load_unquantified (p : string) :
  Spec.unquantified p = true ->
  load p = Some (mkEnv p (develop_of (simple p)) (release_of (simple p))).
Proof. intros H. unfold load. now rewrite (parse_unquantified p H). Qed.

Lemma load_plain (p : string) :
  Spec.plain p = true ->
  load p = Some (mkEnv p (develop_of (literal p)) (release_of (literal p))).
Proof.
  intros H. rewrite (load_unquantified p (plain_unquantified p H)).
  now rewrite (simple_plain p H).
Qed.

(** Each character of such a prefix is matched by its own atom. *)
Lemma matcher_simple (p : string) :
  Spec.unquantified p = true ->
  forall c s i cap,
    matcher (simple p) c (mkState (p ++ s) i cap)
    = c (mkState s (i + String.length p)%nat cap).
Proof.
  induction p as [|a p IH]; intros H c s i cap.
  - simpl. now rewrite Nat.add_0_r.
  - cbn [Spec.unquantified Str.all] in H. apply andb_true_iff in H as [Ha Hp].
    destruct (unquantified_char a Ha) as (_ & _ & Hm).
    cbn [simple matcher append]. unfold step_char. cbn [rest endIndex capture1].
    rewrite Hm, (IH Hp). cbn [String.length]. now rewrite Nat.add_succ_r.
Qed.

Lemma develop_match (p ds : string) :
  Spec.unquantified p = true -> Spec.digit_run ds ->
  exists y, string_match (p ++ ds ++ ".x") (develop_of (simple p)) = Some y
            /\ capture1 y = Some ds.
Proof.
  intros Hp Hds. unfold develop_of. rewrite string_match_anchored.
  cbn [matcher]. rewrite (matcher_simple p Hp).
  eexists. split.
  - apply matcher_digits; [exact Hds | reflexivity | reflexivity].
  - reflexivity.
Qed.

Lemma release_match (p ds ms : string) :
  Spec.unquantified p = true -> Spec.digit_run ds -> Spec.digit_run ms ->
  exists y, string_match (p ++ ds ++ "." ++ ms) (release_of (simple p)) = Some y
            /\ capture1 y = Some ds.
Proof.
  intros Hp Hds Hms. unfold release_of. rewrite string_match_anchored.
  cbn [matcher]. rewrite (matcher_simple p Hp).
  destruct (dot_digits_end_ok ms (0 + String.length p + String.length ds) (Some ds) Hms)
    as (y & Hy & Hcap).
  exists y. split; [|exact Hcap].
  apply matcher_digits; [exact Hds | reflexivity | exact Hy].
Qed.

Lemma develop_match_inv (p s : string) (y : MatchState) :
  string_match s (develop_of (literal p)) = Some y ->
  exists ds, Spec.digit_run ds /\ s = p ++ ds ++ ".x" /\ capture1 y = Some ds.
Proof.
  unfold develop_of. rewrite string_match_anchored. cbn [matcher].
  intros H. apply matcher_literal_inv in H as (t & -> & H).
  apply matcher_digits_inv in H as (ds & u & -> & Hds & H).
  apply dot_x_end_inv in H as [-> Hcap].
  now exists ds.
Qed.

Lemma release_match_inv (p s : string) (y : MatchState) :
  string_match s (release_of (literal p)) = Some y ->
  exists ds ms, Spec.digit_run ds /\ Spec.digit_run ms
                /\ s = p ++ ds ++ "." ++ ms /\ capture1 y = Some ds.
Proof.
  unfold release_of. rewrite string_match_anchored. cbn [matcher].
  intros H. apply matcher_literal_inv in H as (t & -> & H).
  apply matcher_digits_inv in H as (ds & u & -> & Hds & H).
  apply dot_digits_end_inv in H as [(ms & Hms & ->) Hcap].
  now exists ds, ms.
Qed.

End PatternFacts.


(** ** Numbers below [2^53] *)

Section NumberFacts.

Lemma digits_value_nonneg (s : string) :
  forall acc, 0 <= acc -> Str.all is_digit s = true -> 0 <= digits_value acc s.
Proof.
  induction s as [|c s IH]; intros acc Hacc Hall;
    cbn [digits_value Str.all] in *; [exact Hacc|].
  apply andb_true_iff in Hall as [Hc Hall].
  apply IH; [|exact Hall].
  unfold is_digit in Hc. cbv zeta in Hc. apply andb_true_iff in Hc as [Hlo _].
  apply Nat.leb_le in Hlo. unfold digit_val. lia.
Qed.

Lemma round_exact (z : Z) : z < Num.two53 -> Num.round z = Finite z.
Proof.
  intros H. unfold Num.round.
  destruct (z <? Num.two53) eqn:E; [reflexivity|].
  apply Z.ltb_ge in E. lia.
Qed.

Lemma round_two53 : Num.round Num.two53 = Finite Num.two53.
Proof. vm_compute. reflexivity. Qed.

Lemma round_succ_exact (z : Z) :
  z < Num.two53 -> Num.round (z + 1) = Finite (z + 1).
Proof.
  intros H.
  destruct (Z.eq_dec (z + 1) Num.two53) as [E | NE].
  - rewrite E. apply round_two53.
  - apply round_exact. lia.
Qed.

Lemma toString_exact (z : Z) :
  0 <= z <= Num.two53 -> Num.toString (Finite z) = decimal z.
Proof.
  intros [Hlo Hhi]. unfold Num.toString, Num.toString_nonneg.
  destruct (z <? 0) eqn:E0; [apply Z.ltb_lt in E0; lia|].
  destruct (z <=? Num.two53) eqn:E1; [reflexivity|].
  apply Z.leb_gt in E1. lia.
Qed.

(** [parseInt(m[1]) + 1], written out, for a version below [2^53]. *)
Lemma next_version (ds : string) :
  Spec.digit_run ds ->
  digits_value 0 ds < Num.two53 ->
  Num.toString (Num.add (Num.parseInt (Some ds)) 1) = decimal (digits_value 0 ds + 1).
Proof.
  intros [Hne Hall] Hlt.
  pose proof (digits_value_nonneg ds 0 ltac:(lia) Hall) as Hnn.
  unfold Num.parseInt.
  destruct ds as [|c ds]; [now elim Hne|].
  rewrite Hall, (round_exact _ Hlt).
  cbn [Num.add]. rewrite (round_succ_exact _ Hlt).
  apply toString_exact. lia.
Qed.

End NumberFacts.

(** ** Runs of digits *)

Section DigitFacts.

Lemma append_inv_length (a b t u : string) :
  String.length a = String.length b -> a ++ t = b ++ u -> a = b /\ t = u.
Proof.
  revert b; induction a as [|x a IH]; intros [|y b] Hlen H; simpl in *;
    try discriminate.
  - now split.
  - injection H as -> H. injection Hlen as Hlen.
    destruct (IH b Hlen H) as [-> ->]. now split.
Qed.

Lemma append_inv_head (p t u : string) : p ++ t = p ++ u -> t = u.
Proof. intros H. now apply (append_inv_length p p t u eq_refl). Qed.

(** A string has one leading run of digits that stops at a non-digit. *)
Lemma digit_run_unique (a : string) :
  forall b t u,
    Str.all is_digit a = true -> Str.all is_digit b = true ->
    stops CDigit t = true -> stops CDigit u = true ->
    a ++ t = b ++ u -> a = b /\ t = u.
Proof.
  induction a as [|x a IH]; intros [|y b] t u Ha Hb Ht Hu H; simpl in *.
  - now split.
  - subst t. apply andb_true_iff in Hb as [Hy _].
    simpl in Ht. rewrite Hy in Ht. discriminate.
  - subst u. apply andb_true_iff in Ha as [Hx _].
    simpl in Hu. rewrite Hx in Hu. discriminate.
  - injection H as -> H.
    apply andb_true_iff in Ha as [_ Ha]. apply andb_true_iff in Hb as [_ Hb].
    destruct (IH b t u Ha Hb Ht Hu H) as [-> ->]. now split.
Qed.

Lemma matcher_simple_inv (p : string) :
  forall c s i cap y,
    matcher (simple p) c (mkState s i cap) = Some y ->
    exists q t,
      s = q ++ t /\ String.length q = String.length p
      /\ c (mkState t (i + String.length p)%nat cap) = Some y.
Proof.
  induction p as [|a p IH]; intros c s i cap y H.
  - exists "", s. simpl in *. now rewrite Nat.add_0_r.
  - cbn [simple matcher] in H. unfold step_char in H.
    cbn [rest endIndex capture1] in H.
    destruct s as [|b s]; [discriminate|].
    destruct (charset_mem (atom_of_plain a) b); [|discriminate].
    destruct (IH _ _ _ _ _ H) as (q & t & -> & Hlen & Hc).
    exists (String b q), t. cbn [String.length append].
    rewrite Hlen, Nat.add_succ_r. now repeat split.
Qed.

(** With a prefix of one code unit per character, the development
    pattern accepts only a string that ends in digits and [.x]. *)
Lemma develop_match_shape (p s : string) (y : MatchState) :
  string_match s (develop_of (simple p)) = Some y ->
  exists q ds,
    String.length q = String.length p /\ Spec.digit_run ds /\ s = q ++ ds ++ ".x".
Proof.
  unfold develop_of. rewrite string_match_anchored. cbn [matcher].
  intros H. apply matcher_simple_inv in H as (q & t & -> & Hlen & H).
  apply matcher_digits_inv in H as (ds & u & -> & Hds & H).
  apply dot_x_end_inv in H as [-> _].
  now exists q, ds.
Qed.

(** A release name is not accepted by the development pattern. *)
Lemma develop_rejects_release (p ds ms : string) :
  Spec.digit_run ds -> Spec.digit_run ms ->
  string_match (p ++ ds ++ "." ++ ms) (develop_of (simple p)) = None.
Proof.
  intros [_ Hds] [Hne Hms].
  destruct (string_match _ _) as [y|] eqn:H; [|reflexivity].
  exfalso.
  apply develop_match_shape in H as (q & ds' & Hlen & [_ Hds'] & H).
  apply append_inv_length in H as [_ H]; [|now symmetry].
  apply digit_run_unique in H as [_ H]; try assumption; try reflexivity.
  injection H as ->. discriminate Hms.
Qed.

End DigitFacts.


(* ================================================================== *)
(** * The resolver *)

Section Resolver.

(** A development branch whose version is written with any run of digits,
    leading zeros included, as long as its value is below [2^53]. *)
Lemma resolve_development (prefix ds : string) :
  Spec.unquantified prefix = true ->
  Spec.digit_run ds ->
  digits_value 0 ds < 2 ^ 53 ->
  resolve (prefix ++ ds ++ ".x") prefix
  = Some (Some (prefix ++ decimal (digits_value 0 ds + 1) ++ ".x")).
Proof.
  intros Hp Hds Hlt.
  unfold resolve. rewrite (load_unquantified prefix Hp). cbn [option_map].
  unfold flow. cbn [develop_branch_pattern release_branch_pattern branch_prefix].
  destruct (develop_match prefix ds Hp Hds) as (y & -> & ->).
  now rewrite (next_version ds Hds Hlt).
Qed.

Lemma resolve_release (prefix ds ms : string) :
  Spec.unquantified prefix = true ->
  Spec.digit_run ds -> Spec.digit_run ms ->
  resolve (prefix ++ ds ++ "." ++ ms) prefix = Some (Some (prefix ++ ds ++ ".x")).
Proof.
  intros Hp Hds Hms.
  unfold resolve. rewrite (load_unquantified prefix Hp). cbn [option_map].
  unfold flow. cbn [develop_branch_pattern release_branch_pattern branch_prefix].
  rewrite (develop_rejects_release prefix ds ms Hds Hms).
  destruct (release_match prefix ds ms Hp Hds Hms) as (y & -> & Hcap).
  unfold capture_text. now rewrite Hcap.
Qed.

(** With a prefix free of pattern syntax, the resolver answers exactly on
    the names of the two forms. *)
Lemma resolve_plain_inv (prefix branch t : string) :
  Spec.plain prefix = true ->
  resolve branch prefix = Some (Some t) ->
  Spec.development_name prefix branch \/ Spec.release_name prefix branch.
Proof.
  intros Hp. unfold resolve. rewrite (load_plain prefix Hp). cbn [option_map].
  unfold flow. cbn [develop_branch_pattern release_branch_pattern branch_prefix].
  destruct (string_match branch (develop_of (literal prefix))) as [y|] eqn:Hd.
  - intros _. left.
    apply develop_match_inv in Hd as (ds & Hds & -> & _). now exists ds.
  - destruct (string_match branch (release_of (literal prefix))) as [y|] eqn:Hr;
      [|discriminate].
    intros _. right.
    apply release_match_inv in Hr as (ds & ms & Hds & Hms & -> & _).
    now exists ds, ms.
Qed.

Lemma resolve_plain_total (prefix branch : string) :
  Spec.plain prefix = true -> exists r, resolve branch prefix = Some r.
Proof.
  intros Hp. unfold resolve. rewrite (load_plain prefix Hp). cbn [option_map].
  now eexists.
Qed.

(** C3 (amended).  For every integer N with 0 <= N < 2^53 and every prefix
    whose only pattern syntax character is [.], resolving the development
    branch name <prefix><N>.x returns <prefix><N+1>.x. *)
Theorem C3_development_target (prefix : string) (N : Z) :
  Spec.unquantified prefix = true ->
  0 <= N < 2 ^ 53 ->
  resolve (prefix ++ decimal N ++ ".x") prefix
  = Some (Some (prefix ++ decimal (N + 1) ++ ".x")).
Proof.
  intros Hp [Hlo Hhi].
  destruct (decimal_spec N Hlo) as [Hrun Hval].
  rewrite (resolve_development prefix (decimal N) Hp Hrun); rewrite Hval;
    [reflexivity | exact Hhi].
Qed.

Lemma C3_development_target_witness :
  resolve ("rhino-" ++ decimal 7 ++ ".x") "rhino-"
  = Some (Some ("rhino-" ++ decimal (7 + 1) ++ ".x")).
Proof. apply (C3_development_target "rhino-" 7); [reflexivity | lia]. Defined.

(** C3 as stated fails.  At N = 2^53 the sum [parseInt(m[1]) + 1] rounds
    back to 2^53, so the target is the branch itself and not
    9007199254740993.x; and under the prefix [a+] the name a+1.x does not
    match the pattern [^a+(\d+)\.x$], so nothing is resolved. *)
Lemma C3_counterexample :
  resolve ("" ++ decimal (2 ^ 53) ++ ".x") "" = Some (Some "9007199254740992.x")
  /\ "" ++ decimal (2 ^ 53 + 1) ++ ".x" = "9007199254740993.x"
  /\ resolve ("a+" ++ decimal 1 ++ ".x") "a+" = Some None.
Proof. repeat split; vm_compute; reflexivity. Qed.

(** C4 (amended).  For every non-negative integer N, every run of digits
    M and every prefix whose only pattern syntax character is [.],
    resolving the release branch name <prefix><N>.<M> returns
    <prefix><N>.x. *)
Theorem C4_release_target (prefix : string) (N : Z) (M : string) :
  Spec.unquantified prefix = true ->
  0 <= N ->
  Spec.digit_run M ->
  resolve (prefix ++ decimal N ++ "." ++ M) prefix
  = Some (Some (prefix ++ decimal N ++ ".x")).
Proof.
  intros Hp HN HM.
  destruct (decimal_spec N HN) as [Hrun _].
  exact (resolve_release prefix (decimal N) M Hp Hrun HM).
Qed.

Lemma C4_release_target_witness :
  resolve ("rhino-" ++ decimal 2 ++ "." ++ "3") "rhino-"
  = Some (Some ("rhino-" ++ decimal 2 ++ ".x")).
Proof.
  apply (C4_release_target "rhino-" 2 "3"); [reflexivity | lia |].
  split; [discriminate | reflexivity].
Defined.

(** C4 as stated fails: under the prefix [a+] the release name a+1.0 does
    not match [^a+(\d+)\.\d+$], so nothing is resolved. *)
Lemma C4_counterexample :
  resolve ("a+" ++ decimal 1 ++ "." ++ "0") "a+" = Some None
  /\ "a+" ++ decimal 1 ++ ".x" = "a+1.x".
Proof. split; vm_compute; reflexivity. Qed.

(** C8.  A branch name that matches neither the development pattern nor
    the release pattern resolves to none, whatever the patterns are; with
    a prefix free of pattern syntax these are the names of neither form
    <prefix><N>.x nor <prefix><N>.<M>; and main, 1.x.y, and 1.x under the
    prefix rhino-, resolve to none. *)
Theorem C8_not_in_flow :
  (forall env branch,
      string_match branch (develop_branch_pattern env) = None ->
      string_match branch (release_branch_pattern env) = None ->
      flow env branch = None)
  /\ (forall prefix branch,
        Spec.plain prefix = true ->
        ~ Spec.development_name prefix branch ->
        ~ Spec.release_name prefix branch ->
        resolve branch prefix = Some None)
  /\ resolve "main" "" = Some None
  /\ resolve "1.x.y" "" = Some None
  /\ resolve "1.x" "rhino-" = Some None.
Proof.
  split; [|split; [|repeat split; vm_compute; reflexivity]].
  - intros env branch Hd Hr. unfold flow. now rewrite Hd, Hr.
  - intros prefix branch Hp Hnd Hnr.
    destruct (resolve_plain_total prefix branch Hp) as ([t|] & Hres); [|exact Hres].
    destruct (resolve_plain_inv prefix branch t Hp Hres); contradiction.
Qed.

Lemma C8_not_in_flow_witness :
  flow (Scenario.env_of "rhino-") "1.x" = None
  /\ resolve "main" "rhino-" = Some None.
Proof.
  destruct C8_not_in_flow as (Hany & Hplain & _).
  split.
  - apply Hany; reflexivity.
  - apply Hplain; [reflexivity | |].
    + intros (ds & _ & H). discriminate H.
    + intros (ds & ms & _ & _ & H). discriminate H.
Defined.

(** C10.  The prefix is read as pattern text: under the prefix [1.] the
    name 1X2.x, which does not begin with the prefix, resolves to 1.3.x;
    under a prefix free of pattern syntax a name that resolves begins
    with the prefix. *)
Theorem C10_prefix_is_pattern_text :
  resolve "1X2.x" "1." = Some (Some "1.3.x")
  /\ Str.starts_with "1." "1X2.x" = false
  /\ (forall prefix branch t,
        Spec.plain prefix = true ->
        resolve branch prefix = Some (Some t) ->
        Str.starts_with prefix branch = true).
Proof.
  split; [vm_compute; reflexivity|]. split; [reflexivity|].
  intros prefix branch t Hp Hres.
  destruct (resolve_plain_inv prefix branch t Hp Hres)
    as [(ds & _ & ->) | (ds & ms & _ & _ & ->)]; apply starts_with_append.
Qed.

Lemma C10_prefix_is_pattern_text_witness :
  Str.starts_with "rhino-" "rhino-1.x" = true.
Proof.
  destruct C10_prefix_is_pattern_text as (_ & _ & H).
  apply (H "rhino-" "rhino-1.x" "rhino-2.x"); reflexivity.
Defined.

End Resolver.


(* ================================================================== *)
(** * The orchestrator *)

(** Symbolic execution of [run]: unfold the monad, then split on the
    resolver, on the cleanup pattern and on each call as it comes up. *)
Ltac unfold_run :=
  cbv beta iota zeta delta
    [invoke run enablePullRequestAutomerge function_body try_catch bind ret
     return_ await emit now console_log core_info core_warning core_error
     core_setFailed fst snd world calls output app].

Ltac split_run api :=
  unfold_run;
  repeat
    (match goal with
     | |- context [flow ?e ?b] =>
         let T := fresh "Htarget" in destruct (flow e b) as [?target|] eqn:T
     | |- context [string_match ?b cleanup_pattern] =>
         destruct (string_match b cleanup_pattern) as [?m|]
     | |- context [api ?rq ?wd] => destruct (api rq wd) as [?w [?r|?e]]
     end;
     unfold_run).

Ltac obs_eval :=
  cbn [Obs.failed Obs.retry_failed Obs.first_create_failed
       Obs.pulls_create_failed Obs.nonfatal_failures Obs.of_kind Obs.attempts
       Obs.effects Obs.warnings Obs.succeeded Obs.is_deleteRef Obs.is_getBranch
       Obs.is_createRef Obs.is_merge Obs.is_pullsCreate Obs.is_automerge
       Obs.is_issuesUpdate filter existsb flat_map List.length app fst snd
       negb orb andb In] in *.

Ltac warned_auto :=
  solve [repeat first [apply Obs.warned_here | apply Obs.warned_later]].

Ltac in_auto :=
  solve [repeat first [left; reflexivity | right]].

(** Which of the recorded calls a hypothesis [In (req, o) calls] speaks of. *)
Ltac pick_call :=
  repeat match goal with
    | H : _ \/ _ |- _ => destruct H
    | H : False |- _ => elim H
    | H : (_, _) = (_, _) |- _ => injection H as <- ?; subst
    | H : Failed _ = Failed _ |- _ => injection H as ?; subst
    | H : Succeeded = Failed _ |- _ => discriminate H
    | H : Failed _ = Succeeded |- _ => discriminate H
    | H : false = true |- _ => discriminate H
    end.

Section RunFacts.

Variable World : Type.
Variable api : request -> World -> World * result.
Variable date_now : World -> Z.
Variable env : Env.
Variable pull : PullRequest.
Variable w : World.

Let st := invoke World api date_now env pull w.

(** C2.  The run is marked failed exactly when the retry of the branch
    creation or the creation of the pull request is rejected; every other
    rejected call is reported by [core.error] followed by a warning. *)
Theorem C2_exit_status :
  (Obs.failed (output st) = true
   <-> Obs.retry_failed (calls st) = true \/ Obs.pulls_create_failed (calls st) = true)
  /\ (forall e, In e (Obs.nonfatal_failures false (calls st)) ->
                Obs.warned e (output st)).
Proof.
  subst st. split_run api; obs_eval.
  all: split;
    [ split;
      [ intros H; first [discriminate H | left; reflexivity | right; reflexivity]
      | intros [H | H]; first [reflexivity | discriminate H] ]
    | intros e' Hin; pick_call; subst; warned_auto ].
Qed.

(** C7.  When the check that the target branch exists is rejected, no
    branch and no pull request is created (neither call is even made), the
    rejection is reported with the warning about the missing branch, and
    the run is not marked failed. *)
Theorem C7_missing_target_stops (req : request) (e : error) :
  In (req, Failed e) (calls st) ->
  Obs.is_getBranch req = true ->
  Obs.attempts Obs.is_createRef (calls st) = 0%nat
  /\ Obs.attempts Obs.is_pullsCreate (calls st) = 0%nat
  /\ (exists target,
        flow env (base_ref pull) = Some target
        /\ In ("Skipping merge-down for non-existant branch: '" ++ target ++ "'")
             (Obs.warnings (output st)))
  /\ Obs.warned e (output st)
  /\ Obs.failed (output st) = false.
Proof.
  subst st. split_run api; obs_eval; intros Hin Hreq; pick_call.
  all: try discriminate Hreq.
  all: repeat split; try reflexivity; try warned_auto.
  all: eexists; split; [reflexivity | in_auto].
Qed.

(** C5 (amended).  For every invocation whose pull request is created,
    auto-merge enablement is attempted if and only if the merge of the
    target into the candidate branch succeeded; when the merge is rejected,
    the candidate branch and the pull request are still created, auto-merge
    is not attempted, the rejection is reported with a warning, the
    skipping of auto-merge is warned about, and the run is not marked
    failed. *)
Theorem C5_automerge_iff_clean_merge :
  Obs.effects Obs.is_pullsCreate (calls st) = 1%nat ->
  ((0 < Obs.attempts Obs.is_automerge (calls st))%nat
   <-> Obs.effects Obs.is_merge (calls st) = 1%nat)
  /\ (forall req e,
        In (req, Failed e) (calls st) -> Obs.is_merge req = true ->
        Obs.effects Obs.is_createRef (calls st) = 1%nat
        /\ Obs.attempts Obs.is_automerge (calls st) = 0%nat
        /\ Obs.warned e (output st)
        /\ In "Skipping auto-merge because there are merge conflicts"
             (Obs.warnings (output st))
        /\ Obs.failed (output st) = false).
Proof.
  subst st. split_run api; obs_eval; intros Hpr; try discriminate Hpr.
  all: split; [split; intros; first [reflexivity | lia | discriminate] |].
  all: intros req e' Hin Hreq; pick_call; try discriminate Hreq.
  all: repeat split; try reflexivity; try warned_auto; try in_auto.
Qed.


(** C9 (amended).  Every invocation creates at most one branch ref and at
    most one pull request, deletes at most one ref and updates assignees
    at most once; every invocation that reaches the creation of the
    candidate branch creates exactly one, unless the retry is rejected as
    well, in which case it creates none and the run is marked failed. *)
Theorem C9_at_most_one :
  (Obs.effects Obs.is_createRef (calls st) <= 1)%nat
  /\ (Obs.attempts Obs.is_pullsCreate (calls st) <= 1)%nat
  /\ (Obs.attempts Obs.is_deleteRef (calls st) <= 1)%nat
  /\ (Obs.attempts Obs.is_issuesUpdate (calls st) <= 1)%nat
  /\ ((0 < Obs.attempts Obs.is_createRef (calls st))%nat ->
      Obs.retry_failed (calls st) = false ->
      Obs.effects Obs.is_createRef (calls st) = 1%nat)
  /\ (Obs.retry_failed (calls st) = true ->
      Obs.effects Obs.is_createRef (calls st) = 0%nat
      /\ Obs.failed (output st) = true).
Proof.
  subst st. split_run api; obs_eval.
  all: repeat split; intros; first [lia | reflexivity | discriminate].
Qed.

End RunFacts.

(** ** Witnesses and counterexamples on scripted invocations *)

Section Scenarios.

Import Scenario.

Lemma C7_missing_target_stops_witness :
  let st := play "" "1.x" "feature" [false] in
  Obs.attempts Obs.is_createRef (calls st) = 0%nat
  /\ Obs.attempts Obs.is_pullsCreate (calls st) = 0%nat
  /\ (exists target,
        flow (env_of "") "1.x" = Some target
        /\ In ("Skipping merge-down for non-existant branch: '" ++ target ++ "'")
             (Obs.warnings (output st)))
  /\ Obs.warned "HttpError" (output st)
  /\ Obs.failed (output st) = false.
Proof.
  apply (C7_missing_target_stops (list bool) scripted clock (env_of "")
           (merged "1.x" "feature") [false]
           (GetBranch "mcneel" "rhino" "2.x") "HttpError").
  - vm_compute. left. reflexivity.
  - reflexivity.
Defined.

Lemma C5_automerge_iff_clean_merge_witness :
  let st := play "" "1.0" "feature" [true; true; false] in
  ((0 < Obs.attempts Obs.is_automerge (calls st))%nat
   <-> Obs.effects Obs.is_merge (calls st) = 1%nat)
  /\ (forall req e,
        In (req, Failed e) (calls st) -> Obs.is_merge req = true ->
        Obs.effects Obs.is_createRef (calls st) = 1%nat
        /\ Obs.attempts Obs.is_automerge (calls st) = 0%nat
        /\ Obs.warned e (output st)
        /\ In "Skipping auto-merge because there are merge conflicts"
             (Obs.warnings (output st))
        /\ Obs.failed (output st) = false).
Proof.
  apply (C5_automerge_iff_clean_merge (list bool) scripted clock (env_of "")
           (merged "1.0" "feature") [true; true; false]).
  vm_compute. reflexivity.
Defined.

(** C5 as stated fails.  An invocation reaches the creation of the pull
    request after a merge that succeeded, the creation is rejected, and
    auto-merge is never attempted; and after a merge that was rejected, a
    rejected creation leaves no pull request and a failed run. *)
Lemma C5_counterexample :
  (let st := play "" "1.0" "feature" [true; true; true; false] in
   Obs.attempts Obs.is_pullsCreate (calls st) = 1%nat
   /\ Obs.effects Obs.is_merge (calls st) = 1%nat
   /\ Obs.attempts Obs.is_automerge (calls st) = 0%nat)
  /\ (let st := play "" "1.0" "feature" [true; true; false; false] in
      Obs.attempts Obs.is_pullsCreate (calls st) = 1%nat
      /\ Obs.effects Obs.is_merge (calls st) = 0%nat
      /\ Obs.effects Obs.is_pullsCreate (calls st) = 0%nat
      /\ Obs.failed (output st) = true).
Proof. vm_compute. repeat split. Qed.


Example same_event_twice :
  let st1 := replay "" "1.0" "feature" repo0 in
  let st2 := replay "" "1.0" "feature" (world st1) in
  map snd (calls st1) = [Succeeded; Succeeded; Succeeded; Succeeded;
                         Succeeded; Succeeded; Succeeded]
  /\ Obs.of_kind Obs.is_createRef (calls st2)
     = [ (CreateRef "mcneel" "rhino" "refs/heads/feature-merge-1.x" "0a1b2c3",
          Failed "Reference already exists");
         (CreateRef "mcneel" "rhino"
            "refs/heads/feature-1700000000000-merge-1.x" "0a1b2c3", Succeeded) ]
  /\ Obs.failed (output st2) = false
  /\ refs (world st2)
     = ["refs/heads/1.x"; "refs/heads/2.x"; "refs/heads/feature-merge-1.x";
        "refs/heads/feature-1700000000000-merge-1.x"].
Proof. vm_compute. repeat split. Qed.

(** Without a prefix, the candidate branch of a first run is deleted
    when its pull request is merged and the change moves on to [2.x]. *)
Example candidate_cleaned_without_prefix :
  let st1 := replay "" "1.0" "feature" repo0 in
  let st2 := replay "" "1.x" "feature-merge-1.x" (world st1) in
  hd_error (calls st2)
  = Some (DeleteRef "mcneel" "rhino" "heads/feature-merge-1.x", Succeeded)
  /\ refs (world st2)
     = ["refs/heads/1.x"; "refs/heads/2.x";
        "refs/heads/feature-merge-1.x-merge-2.x"].
Proof. vm_compute. repeat split. Qed.

(** With the prefix [rhino-] it is left behind. *)
Example candidate_kept_with_prefix :
  let r0 := mkRepo ["refs/heads/rhino-1.x"; "refs/heads/rhino-2.x"] 1700000000000 in
  let st1 := replay "rhino-" "rhino-1.0" "feature" r0 in
  let st2 := replay "rhino-" "rhino-1.x" "feature-merge-rhino-1.x" (world st1) in
  Obs.attempts Obs.is_deleteRef (calls st2) = 0%nat
  /\ refs (world st2)
     = ["refs/heads/rhino-1.x"; "refs/heads/rhino-2.x";
        "refs/heads/feature-merge-rhino-1.x";
        "refs/heads/feature-merge-rhino-1.x-merge-rhino-2.x"].
Proof. vm_compute. repeat split. Qed.

(** C9 as stated fails.  The invocation reaches the creation of the
    candidate branch, both calls are rejected, and no branch is created. *)
Lemma C9_counterexample :
  let st := play "" "1.0" "feature" [true; false; false] in
  Obs.attempts Obs.is_createRef (calls st) = 2%nat
  /\ Obs.effects Obs.is_createRef (calls st) = 0%nat
  /\ Obs.failed (output st) = true.
Proof. vm_compute. repeat split. Qed.

End Scenarios.

(* ================================================================== *)
(** * Cleanup of an old candidate branch *)

Section Cleanup.

(** The cleanup pattern accepts [-merge-<digits>.x] wherever it starts. *)
Lemma cleanup_at (ds : string) (i : nat) :
  Spec.digit_run ds ->
  exists y,
    matcher cleanup_pattern (fun y => Some y) (mkState ("-merge-" ++ ds ++ ".x") i None)
    = Some y.
Proof.
  intros [Hne Hall].
  destruct ds as [|d ds]; [now elim Hne|].
  cbn [Str.all] in Hall. apply andb_true_iff in Hall as [Hd Hall].
  unfold cleanup_pattern. cbn [matcher].
  rewrite matcher_literal.
  unfold step_char. cbn [rest endIndex capture1 append charset_mem]. rewrite Hd.
  eexists.
  apply repeat_greedy_all; [exact Hall | reflexivity |].
  vm_compute. reflexivity.
Qed.

(** A pattern that matches a suffix wherever it starts is found in the
    whole string. *)
Lemma exec_from_suffix (r : regex) (b s : string) :
  (forall j, matcher r (fun y => Some y) (mkState s j None) <> None) ->
  forall i, exec_from r (b ++ s) i <> None.
Proof.
  intros Hs. induction b as [|c b IH]; intros i.
  - cbn [append]. specialize (Hs i).
    destruct s; cbn [exec_from];
      destruct (matcher r _ _); congruence.
  - cbn [append exec_from].
    destruct (matcher r _ _); [discriminate | apply IH].
Qed.

Lemma cleanup_matches (b ds : string) :
  Spec.digit_run ds ->
  string_match (b ++ "-merge-" ++ ds ++ ".x") cleanup_pattern <> None.
Proof.
  intros Hds. unfold string_match. apply exec_from_suffix.
  intros j. destruct (cleanup_at ds j Hds) as [y Hy]. congruence.
Qed.

(** Without a prefix, both names of a candidate branch are accepted by
    the cleanup pattern, for every target that the resolver returns from a
    version below [2^53]. *)
Lemma cleanup_matches_unprefixed (b base t : string) (now : Z) :
  resolve base "" = Some (Some t) ->
  (forall ds, base = ds ++ ".x" -> digits_value 0 ds < 2 ^ 53) ->
  string_match (candidate_name b t) cleanup_pattern <> None
  /\ string_match (retry_name b now t) cleanup_pattern <> None.
Proof.
  intros Hres Hsmall.
  assert (Ht : exists ds, Spec.digit_run ds /\ t = ds ++ ".x").
  { destruct (resolve_plain_inv "" base t eq_refl Hres)
      as [(ds & Hds & E) | (ds & ms & Hds & Hms & E)]; subst base.
    - rewrite (resolve_development "" ds eq_refl Hds (Hsmall ds eq_refl)) in Hres.
      injection Hres as <-.
      pose proof (digits_value_nonneg ds 0 ltac:(lia) (proj2 Hds)).
      exists (decimal (digits_value 0 ds + 1)). split; [|reflexivity].
      apply decimal_spec. lia.
    - rewrite (resolve_release "" ds ms eq_refl Hds Hms) in Hres.
      injection Hres as <-. now exists ds. }
  destruct Ht as (ds & Hds & ->).
  unfold candidate_name, retry_name. split.
  - now apply cleanup_matches.
  - replace (b ++ "-" ++ show_number now ++ "-merge-" ++ ds ++ ".x")
      with ((b ++ "-" ++ show_number now) ++ "-merge-" ++ ds ++ ".x")
      by (now rewrite !append_assoc).
    now apply cleanup_matches.
Qed.

Variable World : Type.
Variable api : request -> World -> World * result.
Variable date_now : World -> Z.
Variable env : Env.
Variable pull : PullRequest.
Variable w : World.

Let st := invoke World api date_now env pull w.

(** A head branch that the cleanup pattern accepts is deleted first. *)
Lemma run_cleans_matching_head :
  string_match (head_ref pull) cleanup_pattern <> None ->
  flow env (base_ref pull) <> None ->
  exists o,
    hd_error (calls st)
    = Some (DeleteRef (owner pull) (repo pull) ("heads/" ++ head_ref pull), o).
Proof.
  subst st. split_run api; cbn [hd_error]; intros Hm Hf;
    try congruence; eexists; reflexivity.
Qed.

(** A head branch that the cleanup pattern rejects is never deleted. *)
Lemma run_keeps_other_head :
  string_match (head_ref pull) cleanup_pattern = None ->
  Obs.attempts Obs.is_deleteRef (calls st) = 0%nat.
Proof.
  subst st. split_run api; obs_eval; intros Hm;
    first [discriminate Hm | reflexivity].
Qed.

End Cleanup.

(** C1, on the code.  Under the prefix [rhino-] the release branch
    rhino-1.0 resolves to rhino-1.x, so the candidate branch of a head
    branch feature is feature-merge-rhino-1.x (or, after a collision,
    feature-<epochMillis>-merge-rhino-1.x).  Neither name is accepted by
    the cleanup pattern, and when the pull request from the candidate
    branch is merged no ref is deleted, whatever the remote service
    answers. *)
Theorem C1_prefixed_candidate_is_kept
    (World : Type) (api : request -> World -> World * result)
    (date_now : World -> Z) (w : World) :
  load "rhino-" = Some (Scenario.env_of "rhino-")
  /\ flow (Scenario.env_of "rhino-") "rhino-1.0" = Some "rhino-1.x"
  /\ candidate_name "feature" "rhino-1.x" = "feature-merge-rhino-1.x"
  /\ string_match (candidate_name "feature" "rhino-1.x") cleanup_pattern = None
  /\ string_match (retry_name "feature" 1700000000000 "rhino-1.x") cleanup_pattern = None
  /\ flow (Scenario.env_of "rhino-") "rhino-1.x" = Some "rhino-2.x"
  /\ Obs.attempts Obs.is_deleteRef
       (calls (invoke World api date_now (Scenario.env_of "rhino-")
                 (Scenario.merged "rhino-1.x" "feature-merge-rhino-1.x") w))
     = 0%nat.
Proof.
  do 6 (split; [vm_compute; reflexivity|]).
  apply run_keeps_other_head. vm_compute. reflexivity.
Qed.

(** ** Numerals of binary64 values, checked on known cases *)

Section NumberExamples.

Example decimal_0 : decimal 0 = "0".
Proof. reflexivity. Qed.

Example decimal_1024 : decimal 1024 = "1024".
Proof. reflexivity. Qed.

(** Below [2^53] the shortest digits are all the digits. *)
Example toString_digits_small :
  map Num.toString_digits [1; 10; 1200; 2 ^ 52; 2 ^ 53 - 1; 2 ^ 53]
  = map decimal [1; 10; 1200; 2 ^ 52; 2 ^ 53 - 1; 2 ^ 53].
Proof. vm_compute. reflexivity. Qed.

Example toString_2_64 : Num.toString (Num.round (2 ^ 64)) = "18446744073709552000".
Proof. vm_compute. reflexivity. Qed.

Example toString_2_70 : Num.toString (Num.round (2 ^ 70)) = "1.1805916207174113e+21".
Proof. vm_compute. reflexivity. Qed.

Example toString_1e21 : Num.toString (Num.round (10 ^ 21)) = "1e+21".
Proof. vm_compute. reflexivity. Qed.

Example toString_1e23 : Num.toString (Num.round (10 ^ 23)) = "1e+23".
Proof. vm_compute. reflexivity. Qed.

Example round_1e23 : Num.round (10 ^ 23) = Finite 99999999999999991611392.
Proof. vm_compute. reflexivity. Qed.

Example round_tie_even : Num.round (2 ^ 53 + 1) = Finite (2 ^ 53).
Proof. vm_compute. reflexivity. Qed.

Example round_tie_up : Num.round (2 ^ 53 + 3) = Finite (2 ^ 53 + 4).
Proof. vm_compute. reflexivity. Qed.

Example round_overflow : Num.round (2 ^ 1024 - 2 ^ 970) = Infinity.
Proof. vm_compute. reflexivity. Qed.

Example round_max : Num.round (2 ^ 1024 - 2 ^ 970 - 1) = Finite (2 ^ 1024 - 2 ^ 971).
Proof. vm_compute. reflexivity. Qed.

Example resolve_leading_zeros : resolve "007.x" "" = Some (Some "8.x").
Proof. vm_compute. reflexivity. Qed.

Example resolve_huge : resolve "1000000000000000000000.x" "" = Some (Some "1e+21.x").
Proof. vm_compute. reflexivity. Qed.

Example resolve_quantified : resolve "aaa12.x" "a+" = Some (Some "a+13.x").
Proof. vm_compute. reflexivity. Qed.

Example resolve_backtracks : resolve "12.34" ".*" = Some (Some ".*2.x").
Proof. vm_compute. reflexivity. Qed.

Example resolve_outside_fragment : resolve "1.0" "(v)" = None.
Proof. vm_compute. reflexivity. Qed.

End NumberExamples.

(* ================================================================== *)
(** * More on the patterns *)

Section PatternShape.













End PatternShape.

Section CleanupShape.

(** A match found by the search starts somewhere in the string. *)
Lemma exec_from_inv (r : regex) (s : string) :
  forall i y,
    exec_from r s i = Some y ->
    exists a t,
      s = a ++ t
      /\ matcher r (fun y => Some y) (mkState t (i + String.length a)%nat None) = Some y.
Proof.
  induction s as [|c s IH]; intros i y H; cbn [exec_from] in H.
  - exists "", "". cbn [append String.length]. rewrite Nat.add_0_r.
    split; [reflexivity|].
    destruct (matcher r _ _); [exact H | discriminate].
  - destruct (matcher r (fun y => Some y) (mkState (String c s) i None)) as [y'|] eqn:E.
    + exists "", (String c s). cbn [append String.length]. rewrite Nat.add_0_r.
      split; [reflexivity | now rewrite E].
    + apply IH in H as (a & t & -> & Hm).
      exists (String c a), t. cbn [append String.length].
      now rewrite Nat.add_succ_r.
Qed.

Lemma version_end_ok (ds tl : string) (i : nat) :
  Spec.digit_run ds -> tl = "x" \/ Spec.digit_run tl ->
  exists y, matcher version_end (fun y => Some y) (mkState (ds ++ "." ++ tl) i None) = Some y.
Proof.
  intros [Hne Hall] Htl.
  destruct ds as [|d ds]; [now elim Hne|].
  cbn [Str.all] in Hall. apply andb_true_iff in Hall as [Hd Hall].
  unfold version_end. cbn [matcher]. unfold step_char at 1.
  cbn [rest endIndex capture1 append charset_mem]. rewrite Hd.
  destruct Htl as [-> | [Hne' Hall']].
  - eexists. apply repeat_greedy_all; [exact Hall | reflexivity |].
    vm_compute. reflexivity.
  - destruct tl as [|m ms]; [now elim Hne'|].
    cbn [Str.all] in Hall'. apply andb_true_iff in Hall' as [Hm Hms].
    eexists. apply repeat_greedy_all; [exact Hall | reflexivity |].
    unfold step_char. cbn [rest endIndex capture1 append charset_mem].
    rewrite Ascii.eqb_refl, Hm.
    match goal with
    | |- match repeat_greedy _ ?c _ ?j ?cap with _ => _ end = _ =>
        pose proof (repeat_greedy_all CDigit c ms "" j cap) as H
    end.
    rewrite append_nil_r in H. erewrite H; [reflexivity | exact Hms | reflexivity |].
    cbn [rest]. reflexivity.
Qed.

Lemma version_end_inv (t : string) (i : nat) (y : MatchState) :
  matcher version_end (fun y => Some y) (mkState t i None) = Some y ->
  exists ds tl,
    t = ds ++ "." ++ tl /\ Spec.digit_run ds /\ (tl = "x" \/ Spec.digit_run tl).
Proof.
  unfold version_end. cbn [matcher]. unfold step_char at 1.
  cbn [rest endIndex capture1 charset_mem].
  destruct t as [|d t]; [discriminate|].
  destruct (is_digit d) eqn:Hd; [|discriminate].
  intros H. apply repeat_greedy_inv in H as (ds & u & -> & Hall & H).
  change (Str.all is_digit ds = true) in Hall.
  unfold step_char at 1 in H. cbn [rest endIndex capture1 charset_mem] in H.
  destruct u as [|a u]; [discriminate|].
  destruct (Ascii.eqb "." a) eqn:Ea; [|discriminate].
  apply Ascii.eqb_eq in Ea. subst a.
  assert (Hds : Spec.digit_run (String d ds)).
  { split; [discriminate|]. cbn [Str.all]. now rewrite Hd, Hall. }
  exists (String d ds), u. split; [reflexivity|]. split; [exact Hds|].
  match type of H with
  | match ?m with _ => _ end = _ => destruct m as [y'|] eqn:Ealt
  end.
  - right. clear H. unfold step_char in Ealt.
    cbn [rest endIndex capture1 charset_mem] in Ealt.
    destruct u as [|m u]; [discriminate|].
    destruct (is_digit m) eqn:Hm; [|discriminate].
    apply repeat_greedy_inv in Ealt as (ms & v & -> & Hms & Hend).
    change (Str.all is_digit ms = true) in Hms.
    cbn [rest] in Hend. destruct v; [|discriminate].
    rewrite append_nil_r. split; [discriminate|].
    cbn [Str.all]. now rewrite Hm, Hms.
  - left. unfold step_char in H.
    cbn [rest endIndex capture1 charset_mem] in H.
    destruct u as [|b u]; [discriminate|].
    destruct (Ascii.eqb "x" b) eqn:Eb; [|discriminate].
    apply Ascii.eqb_eq in Eb. subst b.
    destruct u; [reflexivity | discriminate].
Qed.

(** X8.  The cleanup pattern accepts exactly the names that end in
    [-merge-], a run of digits, a dot and then either [x] or a run of
    digits: besides candidate names without a prefix, any head branch
    such as fix-merge-2.0 is taken for an old merge-down branch. *)
Theorem X8_cleanup_pattern_shape (b : string) :
  string_match b cleanup_pattern <> None
  <-> exists a ds tl,
        b = a ++ "-merge-" ++ ds ++ "." ++ tl
        /\ Spec.digit_run ds /\ (tl = "x" \/ Spec.digit_run tl).
Proof.
  split.
  - destruct (string_match b cleanup_pattern) as [y|] eqn:E; [|congruence].
    intros _. unfold string_match in E.
    apply exec_from_inv in E as (a & t & -> & H).
    change cleanup_pattern with (Seq (literal "-merge-") version_end) in H.
    cbn [matcher] in H.
    apply matcher_literal_inv in H as (u & -> & H).
    apply version_end_inv in H as (ds & tl & -> & Hds & Htl).
    now exists a, ds, tl.
  - intros (a & ds & tl & -> & Hds & Htl).
    unfold string_match. apply exec_from_suffix. intros j.
    change cleanup_pattern with (Seq (literal "-merge-") version_end).
    cbn [matcher]. rewrite matcher_literal.
    destruct (version_end_ok ds tl (j + String.length "-merge-") Hds Htl) as [y Hy].
    congruence.
Qed.

End CleanupShape.

Section Lineage.

(** X10.  With a prefix free of pattern syntax and a version below 2^53,
    a resolved target is a development branch name other than the branch
    resolved, and it resolves again: the lineage is only ever ended by a
    target branch that does not exist. *)
Theorem X10_target_is_next_development (prefix branch t : string) :
  Spec.plain prefix = true ->
  resolve branch prefix = Some (Some t) ->
  (forall ds, branch = prefix ++ ds ++ ".x" -> digits_value 0 ds < 2 ^ 53) ->
  Spec.development_name prefix t
  /\ t <> branch
  /\ exists t', resolve t prefix = Some (Some t').
Proof.
  intros Hp Hres Hsmall.
  pose proof (plain_unquantified prefix Hp) as Hu.
  assert (Ht : Spec.development_name prefix t /\ t <> branch).
  { destruct (resolve_plain_inv prefix branch t Hp Hres)
      as [(ds & Hds & E) | (ds & ms & Hds & Hms & E)]; subst branch.
    - pose proof (Hsmall ds eq_refl) as Hlt.
      rewrite (resolve_development prefix ds Hu Hds Hlt) in Hres.
      injection Hres as <-.
      pose proof (digits_value_nonneg ds 0 ltac:(lia) (proj2 Hds)) as Hnn.
      destruct (decimal_spec (digits_value 0 ds + 1) ltac:(lia)) as [Hrun Hval].
      split; [now exists (decimal (digits_value 0 ds + 1))|].
      intros E. apply append_inv_head in E.
      apply digit_run_unique in E as [E _];
        [| exact (proj2 Hrun) | exact (proj2 Hds) | reflexivity | reflexivity].
      rewrite E in Hval. lia.
    - rewrite (resolve_release prefix ds ms Hu Hds Hms) in Hres.
      injection Hres as <-.
      split; [now exists ds|].
      intros E. apply append_inv_head in E.
      apply digit_run_unique in E as [_ E];
        [| exact (proj2 Hds) | exact (proj2 Hds) | reflexivity | reflexivity].
      injection E as <-. destruct Hms as [_ Hms]. discriminate Hms. }
  destruct Ht as [Hdev Hne]. split; [exact Hdev|]. split; [exact Hne|].
  destruct Hdev as (ds & Hds & ->).
  unfold resolve. rewrite (load_unquantified prefix Hu). cbn [option_map].
  unfold flow. cbn [develop_branch_pattern release_branch_pattern branch_prefix].
  destruct (develop_match prefix ds Hu Hds) as (y & -> & _).
  now eexists.
Qed.

Lemma X10_target_is_next_development_witness :
  Spec.development_name "rhino-" "rhino-2.x"
  /\ "rhino-2.x" <> "rhino-2.3"
  /\ exists t', resolve "rhino-2.x" "rhino-" = Some (Some t').
Proof.
  apply (X10_target_is_next_development "rhino-" "rhino-2.3" "rhino-2.x").
  - reflexivity.
  - vm_compute. reflexivity.
  - intros ds H. exfalso.
    destruct ds as [|a [|b [|c [|d ds]]]]; discriminate H.
Defined.



End Lineage.

(* ================================================================== *)
(** * More on the orchestrator *)

(** As [split_run], keeping what the service answered to each call. *)
Ltac split_run_eq api :=
  unfold_run;
  repeat
    (match goal with
     | |- context [flow ?e ?b] =>
         let T := fresh "Htarget" in destruct (flow e b) as [?target|] eqn:T
     | |- context [string_match ?b cleanup_pattern] =>
         destruct (string_match b cleanup_pattern) as [?m|]
     | |- context [api ?rq ?wd] =>
         let E := fresh "Hcall" in destruct (api rq wd) as [?w [?r|?e]] eqn:E
     end;
     unfold_run).

Ltac trace_eval :=
  cbn [Trace.last_call Trace.last_message Trace.errors Trace.set_failed_count
       Trace.all_succeeded List.last map forallb hd_error
       Obs.failed Obs.retry_failed Obs.first_create_failed
       Obs.pulls_create_failed Obs.nonfatal_failures Obs.of_kind Obs.attempts
       Obs.effects Obs.warnings Obs.succeeded Obs.is_deleteRef Obs.is_getBranch
       Obs.is_createRef Obs.is_merge Obs.is_pullsCreate Obs.is_automerge
       Obs.is_issuesUpdate filter existsb flat_map List.length app fst snd
       negb orb andb In] in *.

(** Which recorded call a hypothesis [In (req, o) calls] speaks of, with
    the arguments of the call. *)
Ltac pick_request :=
  repeat match goal with
    | H : _ \/ _ |- _ => destruct H
    | H : False |- _ => elim H
    | H : (_, _) = (_, _) |- _ => inversion H; clear H; subst
    | H : false = true |- _ => discriminate H
    end.

Section RunMore.

Variable World : Type.
Variable api : request -> World -> World * result.
Variable date_now : World -> Z.
Variable env : Env.
Variable pull : PullRequest.
Variable w : World.

Let st := invoke World api date_now env pull w.

(** X1.  When the base branch is not part of the flow, the invocation
    calls nothing, leaves the remote world as it was, and writes the log
    line with [null] as the target and then the one warning. *)
Theorem X1_not_in_flow_calls_nothing :
  flow env (base_ref pull) = None ->
  calls st = []
  /\ world st = w
  /\ output st
     = [ ConsoleLog (head_ref pull ++ ": " ++ base_ref pull ++ " -> " ++ "null");
         CoreWarning
           ("Base branch is not a release or development branch: "
            ++ base_ref pull ++ " (branch-prefix: " ++ branch_prefix env ++ ")") ].
Proof.
  subst st. split_run api; intros H; try discriminate H.
  repeat split.
Qed.

(** X2.  From any state, [run] completes normally: a rejection of any
    call is caught inside [run], never passed on to the caller. *)
Theorem X2_run_never_rejects (st0 : State World) :
  snd (run World api date_now env pull st0) = Normal tt.
Proof.
  destruct st0 as [w0 c0 o0]. split_run api; reflexivity.
Qed.

(** X3.  When the run is marked failed, [core.setFailed] was called
    once, as the last message and with the error of the last call, which
    is a rejected [createRef] or [pulls.create]: nothing is called or
    written after the fatal rejection. *)
Theorem X3_fatal_rejection_is_last :
  Obs.failed (output st) = true ->
  exists req e,
    Trace.last_call (calls st) = Some (req, Failed e)
    /\ Trace.last_message (output st) = Some (CoreSetFailed e)
    /\ Trace.set_failed_count (output st) = 1%nat
    /\ Obs.is_createRef req || Obs.is_pullsCreate req = true.
Proof.
  subst st. split_run api; trace_eval; intros H; try discriminate H.
  all: do 2 eexists; repeat split.
Qed.

(** X5.  Every pull request that is asked for has the resolved target
    as its base, the title and body of the templates, and as its head a
    branch that a [createRef] of this invocation created from the head
    commit (the candidate name or the one with the time in it), into
    which the merge of the target was attempted. *)
Theorem X5_pull_request_arguments
    (o r title base head body : string) (out : outcome) :
  In (PullsCreate o r title base head body, out) (calls st) ->
  exists target,
    flow env (base_ref pull) = Some target
    /\ o = owner pull /\ r = repo pull /\ base = target
    /\ title = pull_title (head_ref pull) target
    /\ body = pull_body pull (base_ref pull) target head
    /\ In (CreateRef (owner pull) (repo pull) ("refs/heads/" ++ head) (head_sha pull),
           Succeeded) (calls st)
    /\ (exists mo, In (Merge (owner pull) (repo pull) head target, mo) (calls st))
    /\ (head = candidate_name (head_ref pull) target
        \/ exists t, head = retry_name (head_ref pull) t target).
Proof.
  subst st. split_run api; cbn [In]; intros Hin; pick_request.
  all: eexists; split; [reflexivity|]; repeat split.
  all: first [ in_auto
             | eexists; in_auto
             | left; reflexivity
             | right; eexists; reflexivity ].
Qed.

(** X6.  The assignee update is attempted exactly when the pull request
    was created, whatever happened to the merge and to auto-merge; it is
    the last call, and it assigns the author of the merged pull request
    to the number that [pulls.create] returned. *)
Theorem X6_assignment :
  Obs.attempts Obs.is_issuesUpdate (calls st) = Obs.effects Obs.is_pullsCreate (calls st)
  /\ (forall o r n a out,
        In (IssuesUpdate o r n a, out) (calls st) ->
        o = owner pull /\ r = repo pull /\ a = [user_login pull]
        /\ Trace.last_call (calls st) = Some (IssuesUpdate o r n a, out)
        /\ exists rq wd w' resp,
             Obs.is_pullsCreate rq = true
             /\ In (rq, Succeeded) (calls st)
             /\ api rq wd = (w', Resolved resp)
             /\ n = data_number resp).
Proof.
  subst st. split_run_eq api; trace_eval; (split; [reflexivity|]).
  all: intros o' r' n' a' out' Hin; pick_request.
  all: repeat split.
  all: do 4 eexists; split; [|split; [|split; [|reflexivity]]];
    [ | | eassumption]; [reflexivity | in_auto].
Qed.

(** X7.  The deletion of the head ref is attempted exactly when the
    base branch resolves and the head branch is accepted by the cleanup
    pattern; it is then the first call, before the check that the target
    exists, for the ref [heads/<head>]. *)
Theorem X7_cleanup_trigger :
  ((0 < Obs.attempts Obs.is_deleteRef (calls st))%nat
   <-> string_match (head_ref pull) cleanup_pattern <> None
       /\ flow env (base_ref pull) <> None)
  /\ (forall req o,
        In (req, o) (calls st) -> Obs.is_deleteRef req = true ->
        req = DeleteRef (owner pull) (repo pull) ("heads/" ++ head_ref pull)
        /\ hd_error (calls st) = Some (req, o)).
Proof.
  subst st. split_run api; trace_eval.
  all: split;
    [ split;
      [ intros H; first [lia | split; congruence]
      | intros [H1 H2]; first [lia | congruence] ]
    | intros req o Hin Hreq; pick_request; try discriminate Hreq; split; reflexivity ].
Qed.


(** X13.  The values passed to [core.error] are, in order, the errors of
    the rejected calls other than the retry and [pulls.create], and
    [core.setFailed] is called at most once. *)
Theorem X13_error_log :
  Trace.errors (output st) = Obs.nonfatal_failures false (calls st)
  /\ (Trace.set_failed_count (output st) <= 1)%nat.
Proof.
  subst st. split_run api; trace_eval; split; first [reflexivity | lia].
Qed.

(** X14.  Whenever the enabling of auto-merge is attempted, the log says
    [Auto-merge enabled], also when the attempt is rejected; a rejected
    attempt is warned about, does not mark the run failed, and is still
    followed by the assignment. *)
Theorem X14_auto_merge_log :
  (0 < Obs.attempts Obs.is_automerge (calls st))%nat ->
  In (ConsoleLog "Auto-merge enabled") (output st)
  /\ (forall req e,
        In (req, Failed e) (calls st) -> Obs.is_automerge req = true ->
        Obs.warned e (output st)
        /\ In "Failed to enable auto-merge" (Obs.warnings (output st))
        /\ Obs.failed (output st) = false
        /\ Obs.attempts Obs.is_issuesUpdate (calls st) = 1%nat).
Proof.
  subst st. split_run api; trace_eval; intros Hpos; try lia.
  all: split; [in_auto|].
  all: intros req e' Hin Hreq; pick_request; try discriminate Hreq.
  all: repeat split; first [reflexivity | warned_auto | in_auto].
Qed.

End RunMore.

Section AutomergeFacts.

Variable World : Type.
Variable api : request -> World -> World * result.
Variable pull : PullRequest.


End AutomergeFacts.

Section RunOrder.

Variable World : Type.
Variable api : request -> World -> World * result.
Variable date_now : World -> Z.
Variable env : Env.
Variable pull : PullRequest.
Variable w : World.

Let st := invoke World api date_now env pull w.

(** X16.  The check that the target exists is made exactly when the
    base branch resolves, and for the resolved target; apart from the
    deletion of an old candidate, no call is made unless that check
    resolved. *)
Theorem X16_target_checked_first :
  (Obs.attempts Obs.is_getBranch (calls st) = 1%nat
   <-> flow env (base_ref pull) <> None)
  /\ (forall o r b out,
        In (GetBranch o r b, out) (calls st) ->
        flow env (base_ref pull) = Some b /\ o = owner pull /\ r = repo pull)
  /\ (forall req out,
        In (req, out) (calls st) ->
        Obs.is_deleteRef req = false -> Obs.is_getBranch req = false ->
        exists target,
          flow env (base_ref pull) = Some target
          /\ In (GetBranch (owner pull) (repo pull) target, Succeeded) (calls st)).
Proof.
  subst st. split_run api; trace_eval.
  all: split; [split; intros H; first [reflexivity | discriminate | congruence]|].
  all: split.
  all: try (intros o' r' b' out' Hin; pick_request; repeat split; fail).
  all: intros req out' Hin Hd Hg; pick_request;
    try discriminate Hd; try discriminate Hg.
  all: eexists; split; [reflexivity | in_auto].
Qed.

(** X17.  Inside [run] the lookup of the id is made for the number that
    [pulls.create] returned, and only after a merge that succeeded; the
    mutation is made for the id that the lookup returned, with method
    MERGE. *)
Theorem X17_auto_merge_targets_new_pull :
  (forall o r n out,
      In (GetPullRequestId o r n, out) (calls st) ->
      o = owner pull /\ r = repo pull
      /\ Obs.effects Obs.is_merge (calls st) = 1%nat
      /\ exists rq wd w' resp,
           Obs.is_pullsCreate rq = true
           /\ In (rq, Succeeded) (calls st)
           /\ api rq wd = (w', Resolved resp)
           /\ n = data_number resp)
  /\ (forall id m out,
        In (EnablePullRequestAutoMerge id m, out) (calls st) ->
        m = "MERGE"
        /\ exists n wd w' resp,
             In (GetPullRequestId (owner pull) (repo pull) n, Succeeded) (calls st)
             /\ api (GetPullRequestId (owner pull) (repo pull) n) wd = (w', Resolved resp)
             /\ id = data_id resp).
Proof.
  subst st. split_run_eq api; trace_eval.
  all: split.
  all: try (intros o' r' n' out' Hin; pick_request; fail).
  all: try (intros id' m' out' Hin; pick_request; fail).
  all: try (intros o' r' n' out' Hin; pick_request; repeat split;
            do 4 eexists; split; [|split; [|split; [|reflexivity]]];
            [ | | eassumption]; [reflexivity | in_auto]).
  all: intros id' m' out' Hin; pick_request.
  all: split; [reflexivity|].
  all: do 4 eexists; split; [|split; [|reflexivity]]; [|eassumption]; in_auto.
Qed.

End RunOrder.

Section RoundTrip.

Variable World : Type.
Variable api : request -> World -> World * result.
Variable date_now : World -> Z.
Variable pull : PullRequest.
Variable w : World.

(** X15.  Without a prefix the names of a candidate branch do come back
    to the cleanup: when [t] is resolved from a version below 2^53 and
    the pull request from <b>-merge-<t>, or from the name with the time
    in it, is merged into [t], the head branch is accepted by the cleanup
    pattern and the first call of the invocation deletes its ref. *)
Theorem X15_round_trip_without_prefix (b base t : string) (now : Z) :
  resolve base "" = Some (Some t) ->
  (forall ds, base = ds ++ ".x" -> digits_value 0 ds < 2 ^ 53) ->
  head_ref pull = candidate_name b t \/ head_ref pull = retry_name b now t ->
  base_ref pull = t ->
  string_match (head_ref pull) cleanup_pattern <> None
  /\ exists o,
       hd_error (calls (invoke World api date_now (Scenario.env_of "") pull w))
       = Some (DeleteRef (owner pull) (repo pull) ("heads/" ++ head_ref pull), o).
Proof.
  intros Hres Hsmall Hhead Hbase.
  destruct (cleanup_matches_unprefixed b base t now Hres Hsmall) as [Hc Hr].
  assert (Hm : string_match (head_ref pull) cleanup_pattern <> None)
    by (destruct Hhead as [-> | ->]; assumption).
  split; [exact Hm|].
  apply run_cleans_matching_head; [exact Hm|].
  rewrite Hbase.
  assert (Ht : exists ds, Spec.digit_run ds /\ t = ds ++ ".x").
  { destruct (resolve_plain_inv "" base t eq_refl Hres)
      as [(ds & Hds & E) | (ds & ms & Hds & Hms & E)]; subst base.
    - rewrite (resolve_development "" ds eq_refl Hds (Hsmall ds eq_refl)) in Hres.
      injection Hres as <-.
      pose proof (digits_value_nonneg ds 0 ltac:(lia) (proj2 Hds)).
      exists (decimal (digits_value 0 ds + 1)). split; [|reflexivity].
      apply decimal_spec. lia.
    - rewrite (resolve_release "" ds ms eq_refl Hds Hms) in Hres.
      injection Hres as <-. now exists ds. }
  destruct Ht as (ds & Hds & ->).
  unfold flow, Scenario.env_of.
  cbn [develop_branch_pattern release_branch_pattern branch_prefix].
  destruct (develop_match "" ds eq_refl Hds) as (y & Hy & _).
  cbn [append] in Hy. rewrite Hy. discriminate.
Qed.

End RoundTrip.

Section MoreScenarios.

Import Scenario.

Lemma X15_round_trip_without_prefix_witness :
  string_match "feature-merge-1.x" cleanup_pattern <> None
  /\ exists o,
       hd_error (calls (replay "" "1.x" "feature-merge-1.x" repo0))
       = Some (DeleteRef "mcneel" "rhino" ("heads/" ++ "feature-merge-1.x"), o).
Proof.
  apply (X15_round_trip_without_prefix Repo hosted time
           (merged "1.x" "feature-merge-1.x") repo0 "feature" "1.0" "1.x" 0).
  - vm_compute. reflexivity.
  - intros ds H. exfalso.
    destruct ds as [|a [|b [|c [|d ds]]]]; discriminate H.
  - left. reflexivity.
  - reflexivity.
Defined.

Lemma X1_not_in_flow_calls_nothing_witness :
  let st := play "" "main" "feature" [false] in
  calls st = []
  /\ world st = [false]
  /\ output st
     = [ ConsoleLog ("feature" ++ ": " ++ "main" ++ " -> " ++ "null");
         CoreWarning
           ("Base branch is not a release or development branch: "
            ++ "main" ++ " (branch-prefix: " ++ "" ++ ")") ].
Proof.
  apply (X1_not_in_flow_calls_nothing (list bool) scripted clock (env_of "")
           (merged "main" "feature") [false]).
  vm_compute. reflexivity.
Defined.

Lemma X3_fatal_rejection_is_last_witness :
  let st := play "" "1.0" "feature" [true; true; true; false] in
  exists req e,
    Trace.last_call (calls st) = Some (req, Failed e)
    /\ Trace.last_message (output st) = Some (CoreSetFailed e)
    /\ Trace.set_failed_count (output st) = 1%nat
    /\ Obs.is_createRef req || Obs.is_pullsCreate req = true.
Proof.
  apply (X3_fatal_rejection_is_last (list bool) scripted clock (env_of "")
           (merged "1.0" "feature") [true; true; true; false]).
  vm_compute. reflexivity.
Defined.

Lemma X5_pull_request_arguments_witness :
  let ev := merged "1.0" "feature" in
  let st := replay "" "1.0" "feature" (world (replay "" "1.0" "feature" repo0)) in
  let head := retry_name "feature" 1700000000000 "1.x" in
  exists target,
    flow (env_of "") "1.0" = Some target
    /\ "mcneel" = owner ev /\ "rhino" = repo ev /\ "1.x" = target
    /\ pull_title "feature" "1.x" = pull_title (head_ref ev) target
    /\ pull_body ev "1.0" "1.x" head = pull_body ev (base_ref ev) target head
    /\ In (CreateRef (owner ev) (repo ev) ("refs/heads/" ++ head) (head_sha ev),
           Succeeded) (calls st)
    /\ (exists mo, In (Merge (owner ev) (repo ev) head target, mo) (calls st))
    /\ (head = candidate_name (head_ref ev) target
        \/ exists t, head = retry_name (head_ref ev) t target).
Proof.
  apply (X5_pull_request_arguments Repo hosted time (env_of "")
           (merged "1.0" "feature")
           (world (replay "" "1.0" "feature" repo0))
           "mcneel" "rhino" (pull_title "feature" "1.x") "1.x"
           (retry_name "feature" 1700000000000 "1.x")
           (pull_body (merged "1.0" "feature") "1.0" "1.x"
              (retry_name "feature" 1700000000000 "1.x"))
           Succeeded).
  vm_compute. do 4 right. left. reflexivity.
Defined.


Lemma X14_auto_merge_log_witness :
  let st := play "" "1.0" "feature" [true; true; true; true; false] in
  In (ConsoleLog "Auto-merge enabled") (output st)
  /\ (forall req e,
        In (req, Failed e) (calls st) -> Obs.is_automerge req = true ->
        Obs.warned e (output st)
        /\ In "Failed to enable auto-merge" (Obs.warnings (output st))
        /\ Obs.failed (output st) = false
        /\ Obs.attempts Obs.is_issuesUpdate (calls st) = 1%nat).
Proof.
  apply (X14_auto_merge_log (list bool) scripted clock (env_of "")
           (merged "1.0" "feature") [true; true; true; true; false]).
  vm_compute. lia.
Defined.

End MoreScenarios.
